(** * WeatherAPP: the watchlist backend and its provider client

  A shallow embedding of [src/weather_api.py], [src/models.py],
  [src/database.py] and [src/main.py], followed by the properties of the
  location-sync workflow, the request handlers and the provider client.

  Conventions of the embedding.
  - Python [float] values (coordinates, temperatures) are carried as exact
    rationals [Qc]: the program stores them, passes them on and compares
    coordinates for equality, it does no arithmetic on them.
  - Python [int] is [Z]. A [str] is the [string] of its UTF-8 bytes, as a
    string literal of this file is read; its characters are its code
    points ([Py.code_points]), which is what [len], iteration and [s[0]]
    go by.
  - A decoded JSON document is the Python object [response.json()] returns;
    subscripting, iteration and truth testing follow Python's rules for
    each kind of object.
  - Exceptions are values: a computation ends in [Return] or in [Raise]. *)

From Stdlib Require Import ZArith QArith Qcanon Ascii String List Lia.
From stdpp Require Import base option gmap strings list fin_maps numbers.

Local Open Scope string_scope.
Local Open Scope Z_scope.
Local Open Scope list_scope.

(* ===================================================================== *)
(** ** Python objects, exceptions and the effect monad *)
(* ===================================================================== *)

Module Py.

(** The objects the provider client handles: what [json.loads] builds
    ([None], [bool], numbers, [str], [list], [dict]) and the [datetime] a
    forecast entry carries. A [dict] is kept as an association list read by
    first match. *)
#[local] Set Warnings "-register-all".
Inductive obj : Type :=
| PyNone
| PyBool (b : bool)
| PyNum (q : Qc)
| PyStr (s : string)
| PyList (items : list obj)
| PyDict (fields : list (string * obj))
| PyDatetime (t : Z).

(** The exception classes met in the program. All of them derive from
    [Exception]. *)
Inductive exn : Type :=
| KeyError
| IndexError
| TypeError
| AttributeError
| ValueError            (* json.JSONDecodeError is a ValueError *)
| OverflowError
| RequestError          (* httpx: connection, timeout, protocol failures *)
| HTTPStatusError       (* httpx: raise_for_status on a non-2xx response *)
| InvalidRequestError   (* sqlalchemy: the instance is not persistent *)
| HTTPException (status_code : Z) (detail : string).   (* fastapi *)

Inductive outcome (A : Type) : Type :=
| Return (a : A)
| Raise (e : exn).
Arguments Return {A} a.
Arguments Raise {A} e.

(** A Python dict with string keys, in the order it is written. *)
Definition dict := list (string * obj).

Fixpoint assoc (key : string) (d : dict) : option obj :=
  match d with
  | [] => None
  | (k, v) :: rest => if String.eqb k key then Some v else assoc key rest
  end.

(** [v[key]] for a string key. *)
Definition getitem (v : obj) (key : string) : outcome obj :=
  match v with
  | PyDict d => match assoc key d with
                | Some x => Return x
                | None => Raise KeyError
                end
  | PyList _ | PyStr _ => Raise TypeError   (* indices must be integers *)
  | PyNone | PyBool _ | PyNum _ | PyDatetime _ => Raise TypeError
  end.

(** A byte of the form 10xxxxxx: it continues the code point begun before
    it. *)
Definition continuation (c : ascii) : bool :=
  match c with
  | Ascii _ _ _ _ _ _ false true => true
  | _ => false
  end.

(** The characters of a [str]: each leading byte with the continuation
    bytes that follow it. [split_code_points s] gives the continuation
    bytes [s] starts with, and the characters after them. *)
Fixpoint split_code_points (s : string) : string * list string :=
  match s with
  | EmptyString => (EmptyString, [])
  | String c rest =>
      let (pending, cs) := split_code_points rest in
      if continuation c then (String c pending, cs)
      else (EmptyString, String c pending :: cs)
  end.

Definition code_points (s : string) : list string :=
  let (pending, cs) := split_code_points s in
  match pending with
  | EmptyString => cs
  | _ => pending :: cs
  end.

(** [len(s)] for a [str]. *)
Definition len (s : string) : nat := length (code_points s).

(** [v[0]]. A decoded JSON object has string keys only, so [0] is never
    one of them. *)
Definition getitem0 (v : obj) : outcome obj :=
  match v with
  | PyList (x :: _) => Return x
  | PyList [] => Raise IndexError
  | PyStr s => match code_points s with
               | c :: _ => Return (PyStr c)
               | [] => Raise IndexError
               end
  | PyDict _ => Raise KeyError
  | PyNone | PyBool _ | PyNum _ | PyDatetime _ => Raise TypeError
  end.

(** [v.get(key, default)]. *)
Definition get (v : obj) (key : string) (default : obj) : outcome obj :=
  match v with
  | PyDict d => Return (match assoc key d with Some x => x | None => default end)
  | _ => Raise AttributeError
  end.

Definition chars (s : string) : list obj := map PyStr (code_points s).

(** The items [for item in v] visits. *)
Definition iter (v : obj) : outcome (list obj) :=
  match v with
  | PyList items => Return items
  | PyDict d => Return (map (fun kv => PyStr (fst kv)) d)
  | PyStr s => Return (chars s)
  | PyNone | PyBool _ | PyNum _ | PyDatetime _ => Raise TypeError
  end.

(** Truth value of an object, as [if v:] tests it. *)
Definition truthy (v : obj) : bool :=
  match v with
  | PyNone => false
  | PyBool b => b
  | PyNum q => negb (bool_decide (q = Q2Qc 0))
  | PyStr s => negb (String.eqb s EmptyString)
  | PyList items => match items with [] => false | _ => true end
  | PyDict d => match d with [] => false | _ => true end
  | PyDatetime _ => true
  end.

(** Code that runs against an environment [E] it only reads and a state [S]
    it changes, and ends in a value or an exception. The state reached when
    an exception leaves is kept: what was done before it stays done. *)
Definition M (E S A : Type) : Type := E -> S -> outcome A * S.

Definition ret {E S A} (a : A) : M E S A := fun _ s => (Return a, s).

Definition raise {E S A} (e : exn) : M E S A := fun _ s => (Raise e, s).

Definition lift {E S A} (c : outcome A) : M E S A := fun _ s => (c, s).

Definition bind {E S A B} (c : M E S A) (k : A -> M E S B) : M E S B :=
  fun env s =>
    match c env s with
    | (Return a, s') => k a env s'
    | (Raise e, s') => (Raise e, s')
    end.

(** [try: body / except Exception as e: handler e]. Every class of [exn]
    derives from [Exception], so the clause takes them all. *)
Definition try_except {E S A} (body : M E S A) (handler : exn -> M E S A)
  : M E S A :=
  fun env s =>
    match body env s with
    | (Return a, s') => (Return a, s')
    | (Raise e, s') => handler e env s'
    end.

(** [for x in xs: acc.append(body x)], left at the first exception. *)
Fixpoint for_append {E S A B} (body : A -> M E S B) (xs : list A)
  : M E S (list B) :=
  match xs with
  | [] => ret []
  | x :: rest =>
      bind (body x) (fun y =>
      bind (for_append body rest) (fun ys => ret (y :: ys)))
  end.

(** [for x in xs: body x]. *)
Fixpoint for_each {E S A} (body : A -> M E S unit) (xs : list A)
  : M E S unit :=
  match xs with
  | [] => ret tt
  | x :: rest => bind (body x) (fun _ => for_each body rest)
  end.

End Py.

Import Py.

Notation "'let*' x := c 'in' k" := (Py.bind c (fun x => k))
  (at level 10, x pattern, c at level 100, k at level 200).
Notation "c ;; k" := (Py.bind c (fun _ => k))
  (at level 100, k at level 200, right associativity).

(* ===================================================================== *)
(** ** weather_api.py *)
(* ===================================================================== *)

Module weather_api.

Definition BASE_URL : string := "https://api.openweathermap.org/data/2.5".
Definition GEO_URL : string := "https://api.openweathermap.org/geo/1.0".

(** One [client.get(url, params=params)]. *)
Record request : Type := GET { url : string; params : Py.dict }.

(** What the round trip gives back: [client.get] raises, or there is a
    response with a status code and a body; [None] is a body that is not
    JSON. *)
Inductive reply : Type :=
| Failed
| Response (status_code : Z) (body : option obj).

(** The world outside the process: the provider, whose answer may depend on
    the requests already sent; the API key read from the environment at
    import; the platform's conversion behind [datetime.fromtimestamp]
    ([None] when it refuses the number as out of range). *)
Record world : Type := World {
  provider : list request -> request -> reply;
  API_KEY : string;
  localtime : Qc -> option Z
}.

(** A coroutine of the module; its state is the list of requests sent. *)
Definition io (A : Type) : Type := M world (list request) A.

Definition appid : io string := fun w sent => (Return (API_KEY w), sent).

Definition client_get (u : string) (ps : Py.dict) : io reply :=
  fun w sent =>
    let r := GET u ps in
    match provider w sent r with
    | Failed => (Raise RequestError, sent ++ [r])
    | Response st b => (Return (Response st b), sent ++ [r])
    end.

(** httpx raises for every status outside 2xx. *)
Definition raise_for_status (response : reply) : io unit :=
  match response with
  | Response st _ =>
      if (200 <=? st) && (st <=? 299) then ret tt else raise HTTPStatusError
  | Failed => raise RequestError
  end.

Definition response_json (response : reply) : io obj :=
  match response with
  | Response _ (Some data) => ret data
  | _ => raise ValueError
  end.

(** [datetime.fromtimestamp(v)]: a number is needed ([bool] is an [int]). *)
Definition fromtimestamp (v : obj) : io obj :=
  fun w sent =>
    match v with
    | PyNum q =>
        match localtime w q with
        | Some t => (Return (PyDatetime t), sent)
        | None => (Raise OverflowError, sent)
        end
    | PyBool b =>
        match localtime w (Q2Qc (if b then 1 else 0)) with
        | Some t => (Return (PyDatetime t), sent)
        | None => (Raise OverflowError, sent)
        end
    | _ => (Raise TypeError, sent)
    end.

(** [v[k]] and [v[0][k]] inside a coroutine. *)
Definition item (v : obj) (key : string) : io obj := lift (getitem v key).

Definition item0 (v : obj) : io obj := lift (getitem0 v).

Definition search_cities (query : string) : io (list Py.dict) :=
  try_except
    (let* key := appid in
     let params := [("q", PyStr query); ("limit", PyNum (Q2Qc 5));
                    ("appid", PyStr key)] in
     let* response := client_get (GEO_URL +:+ "/direct") params in
     raise_for_status response ;;
     let* data := response_json response in
     let* items := lift (iter data) in
     let* results :=
       for_append (fun it =>
         let* name := item it "name" in
         let* country := item it "country" in
         let* state := lift (get it "state" (PyStr "")) in
         let* lat := item it "lat" in
         let* lon := item it "lon" in
         ret [("name", name); ("country", country); ("state", state);
              ("lat", lat); ("lon", lon)]) items in
     ret results)
    (fun e => ret []).

Definition get_coordinates (city_name : string) : io (option Py.dict) :=
  try_except
    (let* key := appid in
     let params := [("q", PyStr city_name); ("limit", PyNum (Q2Qc 1));
                    ("appid", PyStr key)] in
     let* response := client_get (GEO_URL +:+ "/direct") params in
     raise_for_status response ;;
     let* data := response_json response in
     if truthy data then
       let* d0 := item0 data in
       let* lat := item d0 "lat" in
       let* d0 := item0 data in
       let* lon := item d0 "lon" in
       let* d0 := item0 data in
       let* name := item d0 "name" in
       let* d0 := item0 data in
       let* country := item d0 "country" in
       ret (Some [("lat", lat); ("lon", lon); ("name", name);
                  ("country", country)])
     else ret None)
    (fun e => ret None).

Definition get_current_weather (lat lon : Qc) (units : string)
  : io (option Py.dict) :=
  try_except
    (let* key := appid in
     let params := [("lat", PyNum lat); ("lon", PyNum lon);
                    ("units", PyStr units); ("appid", PyStr key)] in
     let* response := client_get (BASE_URL +:+ "/weather") params in
     raise_for_status response ;;
     let* data := response_json response in
     let* main := item data "main" in
     let* temp := item main "temp" in
     let* weather := item data "weather" in
     let* w0 := item0 weather in
     let* description := item w0 "description" in
     let* weather := item data "weather" in
     let* w0 := item0 weather in
     let* icon := item w0 "icon" in
     let* main := item data "main" in
     let* humidity := item main "humidity" in
     let* wind := item data "wind" in
     let* wind_speed := item wind "speed" in
     let* main := item data "main" in
     let* feels_like := item main "feels_like" in
     ret (Some [("temp", temp); ("description", description); ("icon", icon);
                ("humidity", humidity); ("wind_speed", wind_speed);
                ("feels_like", feels_like)]))
    (fun e => ret None).

Definition get_forecast (lat lon : Qc) (units : string) : io (list Py.dict) :=
  try_except
    (let* key := appid in
     let params := [("lat", PyNum lat); ("lon", PyNum lon);
                    ("units", PyStr units); ("appid", PyStr key)] in
     let* response := client_get (BASE_URL +:+ "/forecast") params in
     raise_for_status response ;;
     let* data := response_json response in
     let* entries := item data "list" in
     let* items := lift (iter entries) in
     let* forecast :=
       for_append (fun it =>
         let* main := item it "main" in
         let* temp := item main "temp" in
         let* weather := item it "weather" in
         let* w0 := item0 weather in
         let* description := item w0 "description" in
         let* weather := item it "weather" in
         let* w0 := item0 weather in
         let* icon := item w0 "icon" in
         let* dt := item it "dt" in
         let* timestamp := fromtimestamp dt in
         ret [("temp", temp); ("description", description); ("icon", icon);
              ("timestamp", timestamp)]) items in
     ret forecast)
    (fun e => ret []).

End weather_api.

(* ===================================================================== *)
(** ** models.py *)
(* ===================================================================== *)

Module models.

Definition datetime := Z.

(** [class Location(SQLModel, table=True)]. *)
Record Location : Type := mkLocation {
  loc_id : option Z;
  loc_name : string;
  loc_country : string;
  loc_lat : Qc;
  loc_lon : Qc;
  loc_display_name : option string;
  loc_is_favorite : bool;
  loc_last_synced : option datetime
}.

(** [class WeatherSnapshot(SQLModel, table=True)]. *)
Record WeatherSnapshot : Type := mkWeatherSnapshot {
  snap_id : option Z;
  snap_location_id : Z;
  snap_temp : Qc;
  snap_description : string;
  snap_icon : string;
  snap_humidity : Z;
  snap_wind_speed : Qc;
  snap_feels_like : Qc;
  snap_timestamp : datetime
}.

(** Attribute assignments. *)
Definition set_loc_id (l : Location) (v : option Z) : Location :=
  mkLocation v (loc_name l) (loc_country l) (loc_lat l) (loc_lon l)
             (loc_display_name l) (loc_is_favorite l) (loc_last_synced l).

Definition set_is_favorite (l : Location) (v : bool) : Location :=
  mkLocation (loc_id l) (loc_name l) (loc_country l) (loc_lat l) (loc_lon l)
             (loc_display_name l) v (loc_last_synced l).

Definition set_display_name (l : Location) (v : option string) : Location :=
  mkLocation (loc_id l) (loc_name l) (loc_country l) (loc_lat l) (loc_lon l)
             v (loc_is_favorite l) (loc_last_synced l).

Definition set_last_synced (l : Location) (v : option datetime) : Location :=
  mkLocation (loc_id l) (loc_name l) (loc_country l) (loc_lat l) (loc_lon l)
             (loc_display_name l) (loc_is_favorite l) v.

Definition set_snap_id (s : WeatherSnapshot) (v : option Z) : WeatherSnapshot :=
  mkWeatherSnapshot v (snap_location_id s) (snap_temp s) (snap_description s)
                    (snap_icon s) (snap_humidity s) (snap_wind_speed s)
                    (snap_feels_like s) (snap_timestamp s).

End models.

Import models.

(* ===================================================================== *)
(** ** database.py: the store and the request-scoped session *)
(* ===================================================================== *)

Module database.

(** The two tables, each keyed by its INTEGER PRIMARY KEY. *)
Record DB : Type := mkDB {
  locations : gmap Z Location;
  snapshots : gmap Z WeatherSnapshot
}.

(** [create_db_and_tables] on a fresh file. *)
Definition create_db_and_tables : DB := mkDB ∅ ∅.

(** A [Session(engine)]: [stored] is what the database file holds, [view]
    what the session sees, its own unflushed work included; [ticks] counts
    the readings of the clock taken during the request. Leaving the [with]
    block drops whatever was not committed. *)
Record session : Type := mkSession {
  stored : DB;
  view : DB;
  ticks : nat
}.

Definition with_locations (s : session) (t : gmap Z Location) : session :=
  mkSession (stored s) (mkDB t (snapshots (view s))) (ticks s).

Definition with_snapshots (s : session) (t : gmap Z WeatherSnapshot) : session :=
  mkSession (stored s) (mkDB (locations (view s)) t) (ticks s).

Definition rows {V} (t : gmap Z V) : list V := (map_to_list t).*2.

Definition rowids {V} (t : gmap Z V) : list Z := (map_to_list t).*1.

(** The key SQLite gives a row inserted without one: 1 in an empty table,
    else one more than the largest key in use. *)
Definition next_rowid {V} (t : gmap Z V) : Z :=
  match rowids t with
  | [] => 1
  | k :: ks => foldr Z.max k ks + 1
  end.

(** The integers SQLite stores and binds: 64 bits, signed. *)
Definition sqlite_integer (k : Z) : bool := (- 2 ^ 63 <=? k) && (k <? 2 ^ 63).
Arguments sqlite_integer : simpl never.

(** An object of the session once [session.commit()] has expired it and
    before any of its attributes is read again: no attribute is loaded,
    what remains is the primary key the session knows it by. *)
Inductive expired (V : Type) : Type :=
| Expired (primary_key : option Z).
Arguments Expired {V} primary_key.

Section Session.
Context {E : Type}.

(** [session.get(Location, k)]: the row stored under [k], [None] when
    there is none. The SELECT binds [k] as a parameter, and the driver
    refuses a Python [int] that is no SQLite INTEGER with [OverflowError];
    the keys of stored rows are SQLite's own, so this is met only on a key
    that has no row. *)
Definition get_location (k : Z) : M E session (option Location) :=
  fun _ s =>
    match locations (view s) !! k with
    | Some row => (Return (Some row), s)
    | None =>
        if sqlite_integer k then (Return None, s) else (Raise OverflowError, s)
    end.

(** [session.exec(select(T).where(P)).all()]. SQL fixes no order without
    ORDER BY; the rows come in the order of [map_to_list]. *)
Definition select {V} (table : DB -> gmap Z V) (P : V -> Prop)
  `{!∀ v, Decision (P v)} : M E session (list V) :=
  fun _ s => (Return (filter P (rows (table (view s)))), s).

(** [.first()]. *)
Definition first {V} (l : list V) : option V := head l.

(** [session.add(location)]: an INSERT under a new key for an object that
    has none, an UPDATE of its row otherwise. *)
Definition add_location (l : Location) : M E session Location :=
  fun _ s =>
    let t := locations (view s) in
    let k := match loc_id l with Some k => k | None => next_rowid t end in
    let l' := set_loc_id l (Some k) in
    (Return l', with_locations s (<[k := l']> t)).

Definition add_snapshot (w : WeatherSnapshot) : M E session WeatherSnapshot :=
  fun _ s =>
    let t := snapshots (view s) in
    let k := match snap_id w with Some k => k | None => next_rowid t end in
    let w' := set_snap_id w (Some k) in
    (Return w', with_snapshots s (<[k := w']> t)).

(** [session.delete(obj)]. *)
Definition delete_snapshot (w : WeatherSnapshot) : M E session unit :=
  fun _ s =>
    match snap_id w with
    | Some k => (Return tt, with_snapshots s (delete k (snapshots (view s))))
    | None => (Raise InvalidRequestError, s)
    end.

Definition delete_location (l : Location) : M E session unit :=
  fun _ s =>
    match loc_id l with
    | Some k => (Return tt, with_locations s (delete k (locations (view s))))
    | None => (Raise InvalidRequestError, s)
    end.

(** [session.commit()]. *)
Definition commit : M E session unit :=
  fun _ s => (Return tt, mkSession (view s) (view s) (ticks s)).

(** [session.refresh(location)]: the attributes are read again from the
    object's row. *)
Definition refresh_location (l : Location) : M E session Location :=
  fun _ s =>
    match loc_id l with
    | Some k =>
        match locations (view s) !! k with
        | Some row => (Return row, s)
        | None => (Raise InvalidRequestError, s)
        end
    | None => (Raise InvalidRequestError, s)
    end.

(** The state of a persistent object when its attributes are read after the
    session has committed: the session keeps one object per primary key, so
    the attributes are those of the row under the object's key, whoever
    wrote them last. *)
Definition loaded_location (l : Location) : M E session Location :=
  fun _ s =>
    match loc_id l with
    | Some k =>
        match locations (view s) !! k with
        | Some row => (Return row, s)
        | None => (Return l, s)
        end
    | None => (Return l, s)
    end.

(** The same object when nothing reads it after the commit. *)
Definition expired_snapshot (w : WeatherSnapshot) : expired WeatherSnapshot :=
  Expired (snap_id w).

End Session.

(** [with Session(engine) as session: yield session], around one use of
    the session: it opens on the stored tables, and what is left behind is
    what was committed. *)
Definition get_session {E A} (use : M E session A) (env : E) (db : DB)
  : outcome A * DB :=
  let (r, s) := use env (mkSession db db 0) in (r, stored s).

End database.

Import database.

(* ===================================================================== *)
(** ** main.py *)
(* ===================================================================== *)

Module main.

(** The dictionaries [weather_api] hands to the handlers that store them,
    with each value at the type of the column it is written to. The
    handlers are followed on such dictionaries only: what the session does
    with a value of another kind ([null] for a NOT NULL column, a list for
    a FLOAT one) is left out of the embedding. *)
Record geo : Type := mkGeo {
  geo_lat : Qc;
  geo_lon : Qc;
  geo_name : string;
  geo_country : string
}.

Record conditions : Type := mkConditions {
  w_temp : Qc;
  w_description : string;
  w_icon : string;
  w_humidity : Z;
  w_wind_speed : Qc;
  w_feels_like : Qc
}.

(** What a request meets outside the database: the results of the
    [weather_api] coroutines it awaits, and the clock; [utcnow n] is the
    reading number [n] of [datetime.utcnow()] during the request. *)
Record env : Type := mkEnv {
  get_coordinates : string -> option geo;
  get_current_weather : Qc -> Qc -> option conditions;
  get_forecast : Qc -> Qc -> list Py.dict;
  utcnow : nat -> datetime
}.

Definition handler (A : Type) : Type := M env session A.

(** [get_db], the dependency every handler with a session is given: one
    [Session(engine)] for the request, closed when the request ends. *)
Definition get_db {A} (h : handler A) (e : env) (db : DB) : outcome A * DB :=
  let (r, s) := h e (mkSession db db 0) in (r, stored s).

Definition await {A} (call : env -> A) : handler A :=
  fun e s => (Return (call e), s).

(** [datetime.utcnow()]. *)
Definition now : handler datetime :=
  fun e s => (Return (utcnow e (ticks s)),
              mkSession (stored s) (view s) (S (ticks s))).

(** [WeatherSnapshot(...)] without a timestamp: [default_factory] reads the
    clock. *)
Definition new_WeatherSnapshot (location_id : Z) (temp : Qc)
  (description icon : string) (humidity : Z) (wind_speed feels_like : Qc)
  : handler WeatherSnapshot :=
  let* timestamp := now in
  ret (mkWeatherSnapshot None location_id temp description icon humidity
                         wind_speed feels_like timestamp).

(** [Location(name=, country=, lat=, lon=)]: the other fields take their
    defaults. *)
Definition new_Location (name country : string) (lat lon : Qc) : Location :=
  mkLocation None name country lat lon None false None.

(** [{"status": ..., "data": snapshot}]: the snapshot is handed back as the
    commit left it. *)
Record sync_response : Type := mkSyncResponse {
  status : string;
  data : expired WeatherSnapshot
}.

Record weather_response : Type := mkWeatherResponse {
  location : Location;
  current : option WeatherSnapshot;
  forecast : list Py.dict
}.

Record ok_response : Type := mkOk { ok : bool }.

(** GET /api/locations *)
Definition read_locations : handler (list Location) :=
  let* locations := select locations (fun _ => True) in
  ret locations.

(** GET /api/search. This handler takes no session; it runs as a coroutine
    of the provider client. *)
Definition search_cities (q : string) : weather_api.io (list Py.dict) :=
  if String.eqb q "" || (Z.of_nat (len q) <? 3) then ret []
  else
    let* suggestions := weather_api.search_cities q in
    ret suggestions.

(** POST /api/sync/{location_id} *)
Definition sync_location_weather (location_id : Z) : handler sync_response :=
  let* location := get_location location_id in
  match location with
  | None => raise (HTTPException 404 "Location not found")
  | Some location =>
      let* weather_data :=
        await (fun e => get_current_weather e (loc_lat location)
                                            (loc_lon location)) in
      match weather_data with
      | None => raise (HTTPException 503 "Weather API unavailable")
      | Some weather_data =>
          let* snapshot :=
            new_WeatherSnapshot location_id
              (w_temp weather_data) (w_description weather_data)
              (w_icon weather_data) (w_humidity weather_data)
              (w_wind_speed weather_data) (w_feels_like weather_data) in
          let* snapshot := add_snapshot snapshot in
          let* t := now in
          let location := set_last_synced location (Some t) in
          let* location := add_location location in
          commit ;;
          ret (mkSyncResponse "success" (expired_snapshot snapshot))
      end
  end.

(** POST /api/locations *)
Definition create_location (city_name : string) : handler Location :=
  let* geo_data := await (fun e => get_coordinates e city_name) in
  match geo_data with
  | None => raise (HTTPException 404 "City not found or API error")
  | Some geo_data =>
      let* found :=
        select locations (fun l => loc_lat l = geo_lat geo_data
                                   /\ loc_lon l = geo_lon geo_data) in
      match first found with
      | Some existing => ret existing
      | None =>
          let location :=
            new_Location (geo_name geo_data) (geo_country geo_data)
                         (geo_lat geo_data) (geo_lon geo_data) in
          let* location := add_location location in
          commit ;;
          let* location := refresh_location location in
          match loc_id location with
          | None => raise InvalidRequestError
          | Some location_id =>
              sync_location_weather location_id ;;
              (* the object returned is the one the sync fetched by
                 [session.get] and assigned to *)
              let* location := loaded_location location in
              ret location
          end
      end
  end.

(** PATCH /api/locations/{location_id} *)
Definition update_location (location_id : Z) (is_favorite : option bool)
  (display_name : option string) : handler Location :=
  let* location := get_location location_id in
  match location with
  | None => raise (HTTPException 404 "Location not found")
  | Some location =>
      let location :=
        match is_favorite with
        | Some v => set_is_favorite location v
        | None => location
        end in
      let location :=
        match display_name with
        | Some v => set_display_name location (Some v)
        | None => location
        end in
      let* location := add_location location in
      commit ;;
      let* location := refresh_location location in
      ret location
  end.

(** DELETE /api/locations/{location_id} *)
Definition delete_location (location_id : Z) : handler ok_response :=
  let* location := get_location location_id in
  match location with
  | None => raise (HTTPException 404 "Location not found")
  | Some location =>
      let* snapshots :=
        select snapshots (fun s => snap_location_id s = location_id) in
      for_each database.delete_snapshot snapshots ;;
      database.delete_location location ;;
      commit ;;
      ret (mkOk true)
  end.

(** [.order_by(WeatherSnapshot.timestamp.desc()).first()] over the rows
    selected: a row with the greatest timestamp. *)
Fixpoint latest (l : list WeatherSnapshot) : option WeatherSnapshot :=
  match l with
  | [] => None
  | w :: rest =>
      match latest rest with
      | Some w' => if snap_timestamp w <? snap_timestamp w'
                   then Some w' else Some w
      | None => Some w
      end
  end.

(** GET /api/weather/{location_id} *)
Definition get_weather (location_id : Z) : handler weather_response :=
  let* location := get_location location_id in
  match location with
  | None => raise (HTTPException 404 "Location not found")
  | Some location =>
      let* found :=
        select snapshots (fun s => snap_location_id s = location_id) in
      let latest_snapshot := latest found in
      let* forecast :=
        await (fun e => get_forecast e (loc_lat location) (loc_lon location)) in
      ret (mkWeatherResponse location latest_snapshot forecast)
  end.

(** The operations that take a database session, and the tables one of
    them leaves behind. *)
Inductive operation : Type :=
| ReadLocations
| CreateLocation (city_name : string)
| UpdateLocation (location_id : Z) (is_favorite : option bool)
                 (display_name : option string)
| DeleteLocation (location_id : Z)
| GetWeather (location_id : Z)
| SyncLocationWeather (location_id : Z).

Definition perform (op : operation) (e : env) (db : DB) : DB :=
  match op with
  | ReadLocations => snd (get_db read_locations e db)
  | CreateLocation c => snd (get_db (create_location c) e db)
  | UpdateLocation k f d => snd (get_db (update_location k f d) e db)
  | DeleteLocation k => snd (get_db (delete_location k) e db)
  | GetWeather k => snd (get_db (get_weather k) e db)
  | SyncLocationWeather k => snd (get_db (sync_location_weather k) e db)
  end.

(** The tables the system can be in: those of a fresh database, and those
    any operation leaves behind from tables it can be in. *)
Inductive reachable : DB -> Prop :=
| reachable_fresh : reachable create_db_and_tables
| reachable_step db op e :
    reachable db -> reachable (perform op e db).

End main.

(* ===================================================================== *)
(** * Vocabulary of the properties *)
(* ===================================================================== *)

Import main.

(** No Location row sits at the coordinates [(lat, lon)]. *)
Definition coordinates_free (db : DB) (lat lon : Qc) : Prop :=
  map_Forall (fun _ l => ~ (loc_lat l = lat /\ loc_lon l = lon))
             (locations db).

(** The row Add-location inserts for the resolved fields. *)
Definition inserted_location (db : DB) (g : geo) : Location :=
  mkLocation (Some (next_rowid (locations db))) (geo_name g) (geo_country g)
             (geo_lat g) (geo_lon g) None false None.

(** The number of rows of a table that satisfy [P]. *)
Definition count_rows {V} (t : gmap Z V) (P : V -> Prop)
  `{!forall v, Decision (P v)} : nat :=
  size (filter (fun kv => P kv.2) t).

(** Every snapshot row references a Location row that exists. *)
Definition snapshots_owned (db : DB) : Prop :=
  map_Forall (fun _ w => is_Some (locations db !! snap_location_id w))
             (snapshots db).

(** The snapshot row the sync inserts for [k] from the fetched conditions. *)
Definition inserted_snapshot (t : gmap Z WeatherSnapshot) (k : Z)
  (w : conditions) (timestamp : datetime) : WeatherSnapshot :=
  mkWeatherSnapshot (Some (next_rowid t)) k (w_temp w) (w_description w)
                    (w_icon w) (w_humidity w) (w_wind_speed w)
                    (w_feels_like w) timestamp.

(** The row Update-location writes back: only the two optional fields can
    differ from the row fetched. *)
Definition updated_location (l : Location) (is_favorite : option bool)
  (display_name : option string) : Location :=
  mkLocation (loc_id l) (loc_name l) (loc_country l) (loc_lat l) (loc_lon l)
             (match display_name with
              | Some v => Some v
              | None => loc_display_name l
              end)
             (match is_favorite with
              | Some v => v
              | None => loc_is_favorite l
              end)
             (loc_last_synced l).

(** What leaves a handler that looks up an id under which no Location is
    stored: its own 404 when the lookup returns [None], the driver's
    [OverflowError] when the id is no SQLite INTEGER. *)
Definition unstored_id_error (k : Z) : exn :=
  if sqlite_integer k then HTTPException 404 "Location not found"
  else OverflowError.

(** Each row carries its own key in its [id] attribute: the primary-key
    column of the table. *)
Definition location_keys_ok (db : DB) : Prop :=
  map_Forall (fun k l => loc_id l = Some k) (locations db).

Definition snapshot_keys_ok (db : DB) : Prop :=
  map_Forall (fun j w => snap_id w = Some j) (snapshots db).

(** The table after [DELETE] of each key of a list. *)
Definition delete_keys {V} (ks : list Z) (t : gmap Z V) : gmap Z V :=
  foldl (fun t k => delete k t) t ks.

(** The snapshot table a successful Delete-location leaves. *)
Definition snapshots_after_delete (db : DB) (k : Z) : gmap Z WeatherSnapshot :=
  delete_keys
    (omap snap_id (filter (fun w => snap_location_id w = k)
                          (rows (snapshots db))))
    (snapshots db).

(** What an operation can do to the snapshot table: nothing, or one INSERT
    under the next free key. *)
Definition same_or_inserted (t t' : gmap Z WeatherSnapshot) : Prop :=
  t' = t \/ exists w, t' = <[next_rowid t := w]> t.

(** At most one Location row per coordinate pair. *)
Definition coordinates_unique (db : DB) : Prop :=
  map_Forall (fun k1 l1 =>
    map_Forall (fun k2 l2 =>
      loc_lat l1 = loc_lat l2 -> loc_lon l1 = loc_lon l2 -> k1 = k2)
      (locations db))
    (locations db).

(** The JSON document of a reply that has one: the round trip succeeded,
    the status is 2xx and the body decodes. Network failure, any other
    status and an undecodable body give [None]. *)
Definition payload (r : weather_api.reply) : option obj :=
  match r with
  | weather_api.Response st body =>
      if (200 <=? st) && (st <=? 299) then body else None
  | weather_api.Failed => None
  end.

(** What each operation reads from a document, written with Python's
    subscripting: the dictionary it builds when every subscript succeeds. *)
Definition candidate_of (it : obj) (d : Py.dict) : Prop :=
  exists name country state lat lon,
    getitem it "name" = Return name
    /\ getitem it "country" = Return country
    /\ get it "state" (PyStr "") = Return state
    /\ getitem it "lat" = Return lat
    /\ getitem it "lon" = Return lon
    /\ d = [("name", name); ("country", country); ("state", state);
            ("lat", lat); ("lon", lon)].

Definition candidates_of (data : obj) (results : list Py.dict) : Prop :=
  exists items, iter data = Return items /\ Forall2 candidate_of items results.

Definition coordinates_of (data : obj) (d : Py.dict) : Prop :=
  exists d0 lat lon name country,
    getitem0 data = Return d0
    /\ getitem d0 "lat" = Return lat
    /\ getitem d0 "lon" = Return lon
    /\ getitem d0 "name" = Return name
    /\ getitem d0 "country" = Return country
    /\ d = [("lat", lat); ("lon", lon); ("name", name); ("country", country)].

Definition conditions_of (data : obj) (d : Py.dict) : Prop :=
  exists main weather w0 wind temp description icon humidity wind_speed
         feels_like,
    getitem data "main" = Return main
    /\ getitem data "weather" = Return weather
    /\ getitem0 weather = Return w0
    /\ getitem data "wind" = Return wind
    /\ getitem main "temp" = Return temp
    /\ getitem w0 "description" = Return description
    /\ getitem w0 "icon" = Return icon
    /\ getitem main "humidity" = Return humidity
    /\ getitem wind "speed" = Return wind_speed
    /\ getitem main "feels_like" = Return feels_like
    /\ d = [("temp", temp); ("description", description); ("icon", icon);
            ("humidity", humidity); ("wind_speed", wind_speed);
            ("feels_like", feels_like)].

Definition forecast_entry_of (w : weather_api.world) (it : obj) (d : Py.dict)
  : Prop :=
  exists main weather w0 temp description icon dt timestamp,
    getitem it "main" = Return main
    /\ getitem it "weather" = Return weather
    /\ getitem0 weather = Return w0
    /\ getitem main "temp" = Return temp
    /\ getitem w0 "description" = Return description
    /\ getitem w0 "icon" = Return icon
    /\ getitem it "dt" = Return dt
    /\ fst (weather_api.fromtimestamp dt w []) = Return timestamp
    /\ d = [("temp", temp); ("description", description); ("icon", icon);
            ("timestamp", timestamp)].

Definition forecast_of (w : weather_api.world) (data : obj)
  (results : list Py.dict) : Prop :=
  exists entries items,
    getitem data "list" = Return entries
    /\ iter entries = Return items
    /\ Forall2 (forecast_entry_of w) items results.

(** A reply can be read by an operation when it has a document in which
    every subscript the operation makes succeeds. This looks at the
    containers and keys on the way only: the values found under the keys
    are taken as they are, [null] included. *)
Definition readable {A} (reads : obj -> A -> Prop) (r : weather_api.reply)
  : Prop :=
  exists data a, payload r = Some data /\ reads data a.

(** The requests the four operations send. *)
Definition geocoding_request (w : weather_api.world) (q : string) (limit : Z)
  : weather_api.request :=
  weather_api.GET (weather_api.GEO_URL +:+ "/direct")
    [("q", PyStr q); ("limit", PyNum (Q2Qc (inject_Z limit)));
     ("appid", PyStr (weather_api.API_KEY w))].

Definition weather_request (w : weather_api.world) (endpoint : string)
  (lat lon : Qc) (units : string) : weather_api.request :=
  weather_api.GET (weather_api.BASE_URL +:+ endpoint)
    [("lat", PyNum lat); ("lon", PyNum lon); ("units", PyStr units);
     ("appid", PyStr (weather_api.API_KEY w))].

Definition candidate_keys : list string :=
  ["name"; "country"; "state"; "lat"; "lon"].

(** The conditions the theorems put on the tables, together. *)
Definition tables_ok (db : DB) : Prop :=
  location_keys_ok db /\ snapshot_keys_ok db /\ snapshots_owned db
  /\ coordinates_unique db.

(** One write to the tables, as the handlers make them. *)
Inductive write (db : DB) : DB -> Prop :=
| insert_location k l :
    locations db !! k = None -> loc_id l = Some k ->
    coordinates_free db (loc_lat l) (loc_lon l) ->
    write db (mkDB (<[k := l]> (locations db)) (snapshots db))
| update_row k l l' :
    locations db !! k = Some l -> loc_id l' = Some k ->
    loc_lat l' = loc_lat l -> loc_lon l' = loc_lon l ->
    write db (mkDB (<[k := l']> (locations db)) (snapshots db))
| insert_snapshot j w :
    snapshots db !! j = None -> snap_id w = Some j ->
    is_Some (locations db !! snap_location_id w) ->
    write db (mkDB (locations db) (<[j := w]> (snapshots db)))
| delete_with_snapshots k :
    write db (mkDB (delete k (locations db)) (snapshots_after_delete db k)).

(** The status a request is answered with: 200 with the value the handler
    returns, the code of the [HTTPException] it raises, 500 for any other
    exception that leaves it. *)
Definition http_status {A} (o : outcome A) : Z :=
  match o with
  | Return _ => 200
  | Raise (HTTPException code _) => code
  | Raise _ => 500
  end.



(** The candidate Search-cities builds from one JSON object of the
    geocoder's answer: the four required keys, and the state when there is
    one. *)
Definition city_candidate (fields : Py.dict) : option Py.dict :=
  match assoc "name" fields, assoc "country" fields,
        assoc "lat" fields, assoc "lon" fields with
  | Some name, Some country, Some lat, Some lon =>
      Some [("name", name); ("country", country);
            ("state", match assoc "state" fields with
                      | Some state => state
                      | None => PyStr ""
                      end);
            ("lat", lat); ("lon", lon)]
  | _, _, _, _ => None
  end.

(** What the provider client is to return for each JSON document, written
    on the shape of the document: all of the keys it needs, or nothing. *)
Definition candidate_in (it : obj) : option Py.dict :=
  match it with
  | PyDict fields => city_candidate fields
  | _ => None
  end.

(** Search: one candidate per element of the array, in its order, and the
    empty list as soon as one element is not a complete object or the
    document is not an array. *)
Definition candidates_in (data : obj) : list Py.dict :=
  match data with
  | PyList items =>
      match mapM candidate_in items with
      | Some results => results
      | None => []
      end
  | _ => []
  end.

(** Coordinates: read from the first element of the array only. *)
Definition coordinates_in (data : obj) : option Py.dict :=
  match data with
  | PyList (PyDict fields :: _) =>
      match assoc "lat" fields, assoc "lon" fields,
            assoc "name" fields, assoc "country" fields with
      | Some lat, Some lon, Some name, Some country =>
          Some [("lat", lat); ("lon", lon); ("name", name);
                ("country", country)]
      | _, _, _, _ => None
      end
  | _ => None
  end.

(** Current conditions: [main], the first element of [weather], [wind]. *)
Definition conditions_in (data : obj) : option Py.dict :=
  match data with
  | PyDict top =>
      match assoc "main" top, assoc "weather" top, assoc "wind" top with
      | Some (PyDict main), Some (PyList (PyDict w0 :: _)), Some (PyDict wind) =>
          match assoc "temp" main, assoc "description" w0, assoc "icon" w0,
                assoc "humidity" main, assoc "speed" wind,
                assoc "feels_like" main with
          | Some temp, Some description, Some icon, Some humidity,
            Some wind_speed, Some feels_like =>
              Some [("temp", temp); ("description", description);
                    ("icon", icon); ("humidity", humidity);
                    ("wind_speed", wind_speed); ("feels_like", feels_like)]
          | _, _, _, _, _, _ => None
          end
      | _, _, _ => None
      end
  | _ => None
  end.

(** A forecast entry: [main.temp], the first element of [weather], and
    [dt] as the platform converts it. *)
Definition forecast_entry_in (w : weather_api.world) (it : obj)
  : option Py.dict :=
  match it with
  | PyDict fields =>
      match assoc "main" fields, assoc "weather" fields, assoc "dt" fields with
      | Some (PyDict main), Some (PyList (PyDict w0 :: _)), Some dt =>
          match assoc "temp" main, assoc "description" w0, assoc "icon" w0,
                fst (weather_api.fromtimestamp dt w []) with
          | Some temp, Some description, Some icon, Return timestamp =>
              Some [("temp", temp); ("description", description);
                    ("icon", icon); ("timestamp", timestamp)]
          | _, _, _, _ => None
          end
      | _, _, _ => None
      end
  | _ => None
  end.

Definition forecast_in (w : weather_api.world) (data : obj) : list Py.dict :=
  match data with
  | PyDict top =>
      match assoc "list" top with
      | Some (PyList items) =>
          match mapM (forecast_entry_in w) items with
          | Some results => results
          | None => []
          end
      | _ => []
      end
  | _ => []
  end.

(** A Location that has a snapshot has been synced. *)
Definition snapshots_synced (db : DB) : Prop :=
  forall j w, snapshots db !! j = Some w ->
    exists l, locations db !! snap_location_id w = Some l
              /\ is_Some (loc_last_synced l).

(** The snapshots stored for one Location. *)
Definition snapshots_for (db : DB) (k : Z) : list WeatherSnapshot :=
  filter (fun s => snap_location_id s = k) (rows (snapshots db)).

(* --------------------------------------------------------------------- *)
(** ** Concrete providers and tables *)
(* --------------------------------------------------------------------- *)

(** London as the geocoder resolves it, and a provider that resolves every
    name to London and has no current weather to give. *)
Definition london : geo :=
  mkGeo (Q2Qc (515074 # 10000)) (Q2Qc (-1278 # 10000)) "London" "GB".

Definition provider_without_weather : env :=
  mkEnv (fun _ => Some london) (fun _ _ => None) (fun _ _ => [])
        (fun n => Z.of_nat n).

(** A provider that answers every request with six complete cities. *)
Definition city_item (n : Z) : obj :=
  PyDict [("name", PyStr "Springfield"); ("country", PyStr "US");
          ("state", PyStr "IL"); ("lat", PyNum (Q2Qc (inject_Z n)));
          ("lon", PyNum (Q2Qc (inject_Z (- n))))].

Definition six_cities : obj :=
  PyList [city_item 1; city_item 2; city_item 3; city_item 4; city_item 5;
          city_item 6].

Definition generous_world : weather_api.world :=
  weather_api.World (fun _ _ => weather_api.Response 200 (Some six_cities))
                    "key" (fun _ => None).

(** Tables holding Paris, synced once, and a provider that has clear sky
    everywhere. *)
Definition paris : Location :=
  mkLocation (Some 1) "Paris" "FR" (Q2Qc (488566 # 10000))
             (Q2Qc (23522 # 10000)) None false (Some 10).

Definition paris_snapshot : WeatherSnapshot :=
  mkWeatherSnapshot (Some 1) 1 (Q2Qc (155 # 10)) "clear sky" "01d" 50
                    (Q2Qc 5) (Q2Qc 14) 10.

Definition paris_tables : DB :=
  mkDB {[1 := paris]} {[1 := paris_snapshot]}.

Definition clear_sky : conditions :=
  mkConditions (Q2Qc (155 # 10)) "clear sky" "01d" 50 (Q2Qc 5) (Q2Qc 14).

Definition provider_with_weather : env :=
  mkEnv (fun _ => Some london) (fun _ _ => Some clear_sky) (fun _ _ => [])
        (fun n => 100 + Z.of_nat n).

Definition silent_world : weather_api.world :=
  weather_api.World (fun _ _ => weather_api.Failed) "key" (fun _ => None).

(** A current-weather document with every key in place and, temperature
    apart, nothing usable under them; a provider that answers with it. *)
Definition hollow_weather_document : obj :=
  PyDict [("main", PyDict [("temp", PyNum (Q2Qc (155 # 10)));
                           ("humidity", PyNone);
                           ("feels_like", PyNone)]);
          ("weather", PyList [PyDict [("description", PyNone);
                                      ("icon", PyList [])]]);
          ("wind", PyDict [("speed", PyStr "calm")])].

Definition hollow_world : weather_api.world :=
  weather_api.World
    (fun _ _ => weather_api.Response 200 (Some hollow_weather_document))
    "key" (fun _ => None).

(** Documents of the weather endpoints, and a world that answers every
    request with them behind a path that ends in "forecast" or not. *)
Definition weather_document : obj :=
  PyDict [("main", PyDict [("temp", PyNum (Q2Qc (155 # 10)));
                           ("humidity", PyNum (Q2Qc 50));
                           ("feels_like", PyNum (Q2Qc 14))]);
          ("weather", PyList [PyDict [("description", PyStr "clear sky");
                                      ("icon", PyStr "01d")];
                              PyDict [("description", PyStr "mist")]]);
          ("wind", PyDict [("speed", PyNum (Q2Qc 5))])].

Definition forecast_item (dt : obj) : obj :=
  PyDict [("main", PyDict [("temp", PyNum (Q2Qc 12))]);
          ("weather", PyList [PyDict [("description", PyStr "rain");
                                      ("icon", PyStr "10d")]]);
          ("dt", dt)].

Definition forecast_document : obj :=
  PyDict [("cnt", PyNum (Q2Qc 2));
          ("list", PyList [forecast_item (PyNum (Q2Qc 1700000000));
                           forecast_item (PyNum (Q2Qc 1700010800))])].

Definition weather_world : weather_api.world :=
  weather_api.World (fun _ _ => weather_api.Response 200 (Some weather_document))
                    "key" (fun q => Some (Qnum q / Z.pos (Qden q))).

Definition forecast_world : weather_api.world :=
  weather_api.World (fun _ _ => weather_api.Response 200 (Some forecast_document))
                    "key" (fun q => Some (Qnum q / Z.pos (Qden q))).

(** The tables after London was added to a fresh database. *)
Definition london_tables : DB :=
  perform (CreateLocation "London") provider_with_weather create_db_and_tables.

(* ===================================================================== *)
(** * Properties *)
(* ===================================================================== *)

(** Unfolding one handler down to the session primitives. *)
Ltac run_handler :=
  unfold get_db, sync_location_weather, create_location, update_location,
    main.delete_location, get_weather, read_locations, new_WeatherSnapshot,
    now, await, get_location, select, add_location, add_snapshot, commit,
    refresh_location, loaded_location, expired_snapshot,
    Py.bind, Py.ret, Py.raise, Py.lift; simpl.

(* --------------------------------------------------------------------- *)
(** ** Row keys and selections *)
(* --------------------------------------------------------------------- *)

Section Tables.
Context {V : Type}.
Implicit Types (t : gmap Z V) (P : V -> Prop).

Lemma foldr_max_ge (k : Z) (ks : list Z) :
  k <= foldr Z.max k ks /\ Forall (fun j => j <= foldr Z.max k ks) ks.
Proof.
  induction ks as [|j ks [IH1 IH2]]; simpl.
  - split; [lia | constructor].
  - split; [lia |].
    constructor; [lia |].
    rewrite List.Forall_forall in IH2 |- *. intros i Hi. specialize (IH2 i Hi).
    simpl in IH2. lia.
Qed.

Lemma rowid_lt_next t k v : t !! k = Some v -> k < next_rowid t.
Proof.
  intros Hk.
  assert (Hin : k ∈ rowids t).
  { unfold rowids. apply list_elem_of_fmap. exists (k, v). split; [done |].
    by apply elem_of_map_to_list. }
  unfold next_rowid. destruct (rowids t) as [|j js].
  - by apply not_elem_of_nil in Hin.
  - destruct (foldr_max_ge j js) as [Hj Hjs].
    apply elem_of_cons in Hin as [-> | Hin]; [lia |].
    rewrite List.Forall_forall in Hjs. apply list_elem_of_In in Hin.
    specialize (Hjs k Hin). simpl in Hjs. lia.
Qed.

Lemma next_rowid_fresh t : t !! next_rowid t = None.
Proof.
  destruct (t !! next_rowid t) as [v|] eqn:Hk; [| done].
  apply rowid_lt_next in Hk. lia.
Qed.

Lemma elem_of_rows t v : v ∈ rows t <-> exists k, t !! k = Some v.
Proof.
  unfold rows. rewrite list_elem_of_fmap. split.
  - intros [[k v'] [-> Hin]]. exists k. by apply elem_of_map_to_list.
  - intros [k Hk]. exists (k, v). split; [done |]. by apply elem_of_map_to_list.
Qed.

Lemma first_select_None t P `{!forall v, Decision (P v)} :
  first (filter P (rows t)) = None <-> forall k v, t !! k = Some v -> ~ P v.
Proof.
  unfold first. rewrite head_None. split.
  - intros Hnil k v Hk HP.
    assert (Hin : v ∈ filter P (rows t)).
    { apply list_elem_of_filter. split; [done |]. apply elem_of_rows. eauto. }
    rewrite Hnil in Hin. by apply not_elem_of_nil in Hin.
  - intros Hno. destruct (filter P (rows t)) as [|v l] eqn:Hf; [done |].
    assert (Hin : v ∈ filter P (rows t)) by (rewrite Hf; left).
    apply list_elem_of_filter in Hin as [HP Hin].
    apply elem_of_rows in Hin as [k Hk]. by destruct (Hno k v Hk).
Qed.



End Tables.

(** Inside the range of SQLite's integers an unstored id gives the 404. *)
Lemma unstored_id_not_found (k : Z) :
  sqlite_integer k = true ->
  unstored_id_error k = HTTPException 404 "Location not found".
Proof. intros Hk. unfold unstored_id_error. by rewrite Hk. Qed.

Lemma unstored_id_overflow (k : Z) :
  sqlite_integer k = false -> unstored_id_error k = OverflowError.
Proof. intros Hk. unfold unstored_id_error. by rewrite Hk. Qed.

(** The handlers that start with [session.get], on an id that has no
    row. *)
Lemma get_weather_unknown (e : env) (db : DB) (k : Z) :
  locations db !! k = None ->
  get_db (get_weather k) e db = (Raise (unstored_id_error k), db).
Proof.
  intros Hk. unfold unstored_id_error. run_handler. rewrite Hk.
  by destruct (sqlite_integer k).
Qed.

Lemma sync_location_weather_unknown (e : env) (db : DB) (k : Z) :
  locations db !! k = None ->
  get_db (sync_location_weather k) e db = (Raise (unstored_id_error k), db).
Proof.
  intros Hk. unfold unstored_id_error. run_handler. rewrite Hk.
  by destruct (sqlite_integer k).
Qed.

(* --------------------------------------------------------------------- *)
(** ** Sync-snapshot and Add-location when the provider fails *)
(* --------------------------------------------------------------------- *)

(** The snapshot step inside a session, when the fetch returns absent. *)
Lemma sync_in_session_unavailable (e : env) (s : session) (k : Z) (l : Location) :
  locations (view s) !! k = Some l ->
  get_current_weather e (loc_lat l) (loc_lon l) = None ->
  sync_location_weather k e s
    = (Raise (HTTPException 503 "Weather API unavailable"), s).
Proof.
  intros Hk Hw. unfold sync_location_weather, Py.bind, get_location, await.
  rewrite Hk. simpl. by rewrite Hw.
Qed.

(** C3. Sync-snapshot on an existing Location id whose current-weather
    fetch returns absent fails with the 503 [HTTPException] and leaves both
    tables as they were: no WeatherSnapshot row is added and the Location
    row, its [last_synced] included, is the one stored before. *)
Theorem sync_provider_failure_atomic (e : env) (db : DB) (k : Z) (l : Location) :
  locations db !! k = Some l ->
  get_current_weather e (loc_lat l) (loc_lon l) = None ->
  get_db (sync_location_weather k) e db
    = (Raise (HTTPException 503 "Weather API unavailable"), db)
  /\ snapshots (snd (get_db (sync_location_weather k) e db)) = snapshots db
  /\ loc_last_synced <$> locations (snd (get_db (sync_location_weather k) e db)) !! k
     = Some (loc_last_synced l).
Proof.
  intros Hk Hw.
  assert (Hrun : get_db (sync_location_weather k) e db
                 = (Raise (HTTPException 503 "Weather API unavailable"), db)).
  { unfold get_db. by rewrite (sync_in_session_unavailable e _ k l). }
  rewrite Hrun. simpl. rewrite Hk. done.
Qed.

(** Add-location finds a row at the resolved coordinates. *)
Lemma create_location_existing (e : env) (db : DB) (city_name : string)
  (g : geo) (x : Location) :
  get_coordinates e city_name = Some g ->
  first (filter (fun l => loc_lat l = geo_lat g /\ loc_lon l = geo_lon g)
                (rows (locations db))) = Some x ->
  get_db (create_location city_name) e db = (Return x, db).
Proof.
  intros Hgeo Hx. run_handler. rewrite Hgeo. simpl. by rewrite Hx.
Qed.

(** Add-location inserts, and the snapshot step fails. *)
Lemma create_location_new_unavailable (e : env) (db : DB)
  (city_name : string) (g : geo) :
  get_coordinates e city_name = Some g ->
  coordinates_free db (geo_lat g) (geo_lon g) ->
  get_current_weather e (geo_lat g) (geo_lon g) = None ->
  get_db (create_location city_name) e db
  = (Raise (HTTPException 503 "Weather API unavailable"),
     mkDB (<[next_rowid (locations db) := inserted_location db g]>
             (locations db))
          (snapshots db)).
Proof.
  intros Hgeo Hfree Hw.
  run_handler. rewrite Hgeo. simpl.
  rewrite (proj2 (first_select_None (locations db) _) Hfree). simpl.
  rewrite !lookup_insert_eq. simpl.
  erewrite sync_in_session_unavailable; [done | apply lookup_insert_eq | done].
Qed.

(** C2. Add-location with coordinates resolved and not yet present, and a
    current-weather fetch that returns absent: the caller receives the
    snapshot step's 503 [HTTPException], not the Location; the new Location
    row is stored under a fresh key with [last_synced] absent, and no
    snapshot row is written. *)
Theorem create_location_sync_failure_persists
  (e : env) (db : DB) (city_name : string) (g : geo) :
  get_coordinates e city_name = Some g ->
  coordinates_free db (geo_lat g) (geo_lon g) ->
  get_current_weather e (geo_lat g) (geo_lon g) = None ->
  locations db !! next_rowid (locations db) = None
  /\ loc_last_synced (inserted_location db g) = None
  /\ get_db (create_location city_name) e db
     = (Raise (HTTPException 503 "Weather API unavailable"),
        mkDB (<[next_rowid (locations db) := inserted_location db g]>
                (locations db))
             (snapshots db)).
Proof.
  intros Hgeo Hfree Hw.
  split; [apply next_rowid_fresh |]. split; [done |].
  by apply create_location_new_unavailable.
Qed.

(* --------------------------------------------------------------------- *)
(** ** Add-location when everything succeeds *)
(* --------------------------------------------------------------------- *)

Lemma count_rows_unique {V} (t : gmap Z V) (P : V -> Prop)
  `{!forall v, Decision (P v)} (k : Z) (v : V) :
  t !! k = Some v -> P v ->
  (forall k' v', t !! k' = Some v' -> P v' -> k' = k) ->
  count_rows t P = 1%nat.
Proof.
  intros Hk HP Huniq. unfold count_rows.
  assert (Heq : filter (fun kv : Z * V => P kv.2) t = {[k := v]}).
  { apply map_eq. intros i. destruct (decide (i = k)) as [-> | Hne].
    - rewrite lookup_singleton_eq. by apply map_lookup_filter_Some.
    - rewrite lookup_singleton_ne by done.
      destruct (filter _ t !! i) as [v'|] eqn:Hi; [| done].
      apply map_lookup_filter_Some in Hi as [Hi HP']. simpl in HP'.
      by destruct Hne; eapply Huniq. }
  rewrite Heq. apply map_size_singleton.
Qed.

(** The snapshot step inside a session, when the fetch succeeds, for a row
    whose [id] attribute is its key. *)
Lemma sync_in_session_success (e : env) (s : session) (k : Z) (l : Location)
  (w : conditions) :
  locations (view s) !! k = Some l ->
  loc_id l = Some k ->
  get_current_weather e (loc_lat l) (loc_lon l) = Some w ->
  let snap := inserted_snapshot (snapshots (view s)) k w (utcnow e (ticks s)) in
  let l' := set_last_synced l (Some (utcnow e (S (ticks s)))) in
  let db' := mkDB (<[k := l']> (locations (view s)))
                  (<[next_rowid (snapshots (view s)) := snap]>
                     (snapshots (view s))) in
  sync_location_weather k e s
    = (Return (mkSyncResponse "success" (Expired (snap_id snap))),
       mkSession db' db' (S (S (ticks s)))).
Proof.
  intros Hk Hid Hw. simpl.
  unfold sync_location_weather, new_WeatherSnapshot, now, await, get_location,
    add_snapshot, add_location, commit, expired_snapshot, Py.bind, Py.ret.
  rewrite Hk. simpl. rewrite Hw. simpl.
  rewrite Hid. simpl.
  unfold set_loc_id, set_last_synced, inserted_snapshot, set_snap_id. simpl.
  by rewrite <- Hid.
Qed.

(** Add-location inserts, and the snapshot step succeeds. *)
Lemma create_location_new_success (e : env) (db : DB) (city_name : string)
  (g : geo) (w : conditions) :
  get_coordinates e city_name = Some g ->
  coordinates_free db (geo_lat g) (geo_lon g) ->
  get_current_weather e (geo_lat g) (geo_lon g) = Some w ->
  let k := next_rowid (locations db) in
  let l := set_last_synced (inserted_location db g) (Some (utcnow e 1%nat)) in
  let snap := inserted_snapshot (snapshots db) k w (utcnow e 0%nat) in
  get_db (create_location city_name) e db
  = (Return l,
     mkDB (<[k := l]> (locations db))
          (<[next_rowid (snapshots db) := snap]> (snapshots db))).
Proof.
  intros Hgeo Hfree Hw. simpl.
  run_handler. rewrite Hgeo. simpl.
  rewrite (proj2 (first_select_None (locations db) _) Hfree). simpl.
  rewrite !lookup_insert_eq. simpl.
  erewrite (sync_in_session_success e _ _ (inserted_location db g) w);
    [| apply lookup_insert_eq | done | done].
  simpl. rewrite lookup_insert_eq. simpl.
  by rewrite insert_insert_eq.
Qed.

(** C10. Add-location that creates a new Location (coordinates resolved and
    not yet present, initial current-weather fetch successful), on tables
    whose snapshots all reference existing Locations: the Location returned
    is the stored row, its [last_synced] is set, and exactly one
    WeatherSnapshot row references it. *)
Theorem create_location_success_synced
  (e : env) (db : DB) (city_name : string) (g : geo) (w : conditions) :
  get_coordinates e city_name = Some g ->
  coordinates_free db (geo_lat g) (geo_lon g) ->
  get_current_weather e (geo_lat g) (geo_lon g) = Some w ->
  snapshots_owned db ->
  exists (l : Location) (db' : DB) (k : Z),
    get_db (create_location city_name) e db = (Return l, db')
    /\ loc_id l = Some k
    /\ locations db !! k = None
    /\ locations db' !! k = Some l
    /\ is_Some (loc_last_synced l)
    /\ count_rows (snapshots db') (fun s => snap_location_id s = k) = 1%nat.
Proof.
  intros Hgeo Hfree Hw Hown.
  set (k := next_rowid (locations db)).
  set (l0 := inserted_location db g).
  set (l := set_last_synced l0 (Some (utcnow e 1%nat))).
  set (snap := inserted_snapshot (snapshots db) k w (utcnow e 0%nat)).
  exists l, (mkDB (<[k := l]> (locations db))
                  (<[next_rowid (snapshots db) := snap]> (snapshots db))), k.
  assert (Hfresh : locations db !! k = None) by apply next_rowid_fresh.
  split; [| split; [done | split; [done | split; [| split]]]].
  - by apply create_location_new_success.
  - simpl. apply lookup_insert_eq.
  - by eexists.
  - simpl. apply (count_rows_unique _ _ (next_rowid (snapshots db)) snap).
    + apply lookup_insert_eq.
    + done.
    + intros j' w' Hj' Href.
      destruct (decide (j' = next_rowid (snapshots db))) as [-> | Hne]; [done |].
      rewrite lookup_insert_ne in Hj' by done.
      destruct (Hown j' w' Hj') as [l' Hl']. simpl in Href.
      rewrite Href, Hfresh in Hl'. done.
Qed.

(* --------------------------------------------------------------------- *)
(** ** Update-location *)
(* --------------------------------------------------------------------- *)

Lemma update_location_unknown (e : env) (db : DB) (k : Z)
  (is_favorite : option bool) (display_name : option string) :
  locations db !! k = None ->
  get_db (update_location k is_favorite display_name) e db
    = (Raise (unstored_id_error k), db).
Proof.
  intros Hk. unfold unstored_id_error. run_handler. rewrite Hk.
  by destruct (sqlite_integer k).
Qed.

Lemma update_location_run (e : env) (db : DB) (k : Z)
  (is_favorite : option bool) (display_name : option string) (l : Location) :
  locations db !! k = Some l ->
  loc_id l = Some k ->
  get_db (update_location k is_favorite display_name) e db
  = (Return (updated_location l is_favorite display_name),
     mkDB (<[k := updated_location l is_favorite display_name]> (locations db))
          (snapshots db)).
Proof.
  intros Hk Hid. run_handler. rewrite Hk. simpl.
  destruct is_favorite, display_name; simpl; rewrite Hid; simpl;
    rewrite lookup_insert_eq; simpl; rewrite <- Hid; by destruct l.
Qed.

(** C9. At the id 2^63, under which no Location is stored, Update-location
    does not fail with the 404: [session.get] raises [OverflowError] on the
    id before the handler can test what it found, the exception leaves the
    handler, and the request is answered with a 500. The tables stay as
    they were. *)
Theorem update_location_beyond_sqlite_integer :
  let r := get_db (update_location (2 ^ 63) (Some true) None)
                  provider_with_weather paris_tables in
  locations paris_tables !! (2 ^ 63) = None
  /\ r = (Raise OverflowError, paris_tables)
  /\ fst r <> Raise (HTTPException 404 "Location not found")
  /\ http_status (fst r) = 500.
Proof.
  assert (Hk : locations paris_tables !! (2 ^ 63) = None)
    by (vm_compute; reflexivity).
  simpl. rewrite (update_location_unknown _ _ _ _ _ Hk).
  rewrite unstored_id_overflow by reflexivity. done.
Qed.

(** X19. Update-location on an id under which nothing is stored changes
    nothing; it fails with the 404 [HTTPException] when the id is a SQLite
    INTEGER and with [OverflowError] when it is not. On the id of a stored
    row (whose [id] attribute is its key) it returns and stores that row with
    [is_favorite] replaced only when a value is supplied and [display_name]
    replaced only when a value is supplied; [id], [name], [country], [lat],
    [lon] and [last_synced] keep their values, every other Location row
    and the whole snapshot table stay as they were. *)
Theorem update_location_frame (e : env) (db : DB) (k : Z)
  (is_favorite : option bool) (display_name : option string) :
  (locations db !! k = None ->
   get_db (update_location k is_favorite display_name) e db
     = (Raise (if sqlite_integer k
               then HTTPException 404 "Location not found"
               else OverflowError), db))
  /\ (forall l, locations db !! k = Some l -> loc_id l = Some k ->
      let l' := updated_location l is_favorite display_name in
      let db' := snd (get_db (update_location k is_favorite display_name) e db) in
      get_db (update_location k is_favorite display_name) e db
        = (Return l', mkDB (<[k := l']> (locations db)) (snapshots db))
      /\ (is_favorite = None -> loc_is_favorite l' = loc_is_favorite l)
      /\ (display_name = None -> loc_display_name l' = loc_display_name l)
      /\ (loc_id l', loc_name l', loc_country l', loc_lat l', loc_lon l',
          loc_last_synced l')
         = (loc_id l, loc_name l, loc_country l, loc_lat l, loc_lon l,
            loc_last_synced l)
      /\ (forall k', k' <> k -> locations db' !! k' = locations db !! k')
      /\ snapshots db' = snapshots db).
Proof.
  split.
  - apply update_location_unknown.
  - intros l Hk Hid. simpl.
    rewrite (update_location_run e db k is_favorite display_name l Hk Hid).
    simpl. split; [done |].
    split; [by intros -> |]. split; [by intros -> |]. split; [done |].
    split; [| done]. intros k' Hne. by rewrite lookup_insert_ne.
Qed.

(* --------------------------------------------------------------------- *)
(** ** Search-cities: the length guard *)
(* --------------------------------------------------------------------- *)

(** The provider client's search sends exactly one request, whatever comes
    back. *)
Lemma weather_api_search_sends_one (q : string) (w : weather_api.world)
  (sent : list weather_api.request) :
  exists r, snd (weather_api.search_cities q w sent) = sent ++ [r].
Proof.
  eexists. unfold weather_api.search_cities, Py.try_except, Py.bind,
    weather_api.appid, weather_api.client_get. simpl.
  destruct (weather_api.provider w sent _) as [|st b] eqn:Hp; simpl; [done |].
  unfold weather_api.raise_for_status.
  destruct ((200 <=? st) && (st <=? 299)); simpl; [| done].
  destruct b as [data|]; simpl; [| done].
  unfold Py.lift.
  destruct (iter data) as [items|ex]; simpl; [| done].
  match goal with
  | |- context [for_append ?body items w ?st0] =>
      assert (Hloop : snd (for_append body items w st0) = st0)
  end.
  { generalize (sent ++ [weather_api.GET (weather_api.GEO_URL +:+ "/direct")
       [("q", PyStr q); ("limit", PyNum (Q2Qc 5));
        ("appid", PyStr (weather_api.API_KEY w))]]).
    induction items as [|it items IH]; intros st0; simpl; [done |].
    unfold Py.bind at 1. unfold weather_api.item, Py.lift, Py.bind, Py.ret.
    destruct (getitem it "name"); simpl; [| done].
    destruct (getitem it "country"); simpl; [| done].
    destruct (get it "state" (PyStr "")); simpl; [| done].
    destruct (getitem it "lat"); simpl; [| done].
    destruct (getitem it "lon"); simpl; [| done].
    specialize (IH st0). unfold weather_api.item, Py.lift, Py.bind, Py.ret in IH.
    destruct (for_append _ items w st0) as [[ys|ex] st1]; simpl in *; done. }
  destruct (for_append _ items w _) as [[ys|ex] st1]; simpl in *; by subst.
Qed.

(** C6. For a query of fewer than three characters, counted as Python's
    [len] counts them (code points, whatever the number of bytes of each),
    the empty string included, Search-cities returns the empty list and
    sends nothing to the provider: the list of requests sent is the one it
    started from. *)
Theorem search_short_query_no_network (q : string) (w : weather_api.world)
  (sent : list weather_api.request) :
  (len q < 3)%nat ->
  main.search_cities q w sent = (Return [], sent).
Proof.
  intros Hlen. unfold main.search_cities.
  assert (Hguard : String.eqb q "" || (Z.of_nat (len q) <? 3) = true).
  { apply orb_true_iff. right. apply Z.ltb_lt. lia. }
  by rewrite Hguard.
Qed.

(* --------------------------------------------------------------------- *)
(** ** Delete-location *)
(* --------------------------------------------------------------------- *)

Lemma lookup_delete_keys {V} (ks : list Z) (t : gmap Z V) (j : Z) :
  delete_keys ks t !! j = if decide (j ∈ ks) then None else t !! j.
Proof.
  revert t. induction ks as [|k ks IH]; intros t; unfold delete_keys in *.
  - cbn [foldl]. destruct (decide (j ∈ [])) as [Hin | _]; [| done].
    by apply not_elem_of_nil in Hin.
  - cbn [foldl]. rewrite IH.
    destruct (decide (j ∈ ks)) as [Hin | Hnin];
      destruct (decide (j ∈ k :: ks)) as [Hin' | Hnin']; try done.
    + destruct Hnin'. by right.
    + apply elem_of_cons in Hin' as [-> | ?]; [| done].
      apply lookup_delete_eq.
    + rewrite lookup_delete_ne; [done |]. intros ->. destruct Hnin'. left.
Qed.

Lemma for_each_delete_snapshot (e : env) (ws : list WeatherSnapshot) (s : session) :
  Forall (fun w => is_Some (snap_id w)) ws ->
  for_each (@delete_snapshot env) ws e s
    = (Return tt,
       with_snapshots s (delete_keys (omap snap_id ws) (snapshots (view s)))).
Proof.
  revert s. induction ws as [|w ws IH]; intros s Hall; simpl.
  - unfold Py.ret, with_snapshots. by destruct s as [st [ls ss] n].
  - inversion Hall as [|? ? [j Hj] Hall']; subst.
    unfold Py.bind, delete_snapshot at 1. rewrite Hj. simpl.
    rewrite IH by done. by destruct s as [st [ls ss] n].
Qed.

Lemma selected_snapshot_keys (db : DB) (P : WeatherSnapshot -> Prop)
  `{!forall w, Decision (P w)} (j : Z) :
  snapshot_keys_ok db ->
  j ∈ omap snap_id (filter P (rows (snapshots db)))
  <-> exists w, snapshots db !! j = Some w /\ P w.
Proof.
  intros Hpk. rewrite list_elem_of_omap. split.
  - intros [w [Hin Hid]]. apply list_elem_of_filter in Hin as [HP Hin].
    apply elem_of_rows in Hin as [j' Hj'].
    rewrite (Hpk j' w Hj') in Hid. simplify_eq. eauto.
  - intros [w [Hj HP]]. exists w. split; [| by apply Hpk].
    apply list_elem_of_filter. split; [done |]. apply elem_of_rows. eauto.
Qed.

Lemma selected_snapshots_have_keys (db : DB) (P : WeatherSnapshot -> Prop)
  `{!forall w, Decision (P w)} :
  snapshot_keys_ok db ->
  Forall (fun w => is_Some (snap_id w)) (filter P (rows (snapshots db))).
Proof.
  intros Hpk. apply List.Forall_forall. intros w Hin.
  apply list_elem_of_In, list_elem_of_filter in Hin as [_ Hin].
  apply elem_of_rows in Hin as [j Hj]. rewrite (Hpk j w Hj). by eexists.
Qed.

Lemma lookup_snapshots_after_delete (db : DB) (k j : Z) :
  snapshot_keys_ok db ->
  snapshots_after_delete db k !! j
  = match snapshots db !! j with
    | Some w => if decide (snap_location_id w = k) then None else Some w
    | None => None
    end.
Proof.
  intros Hpk. unfold snapshots_after_delete. rewrite lookup_delete_keys.
  destruct (decide (j ∈ _)) as [Hin | Hnin].
  - apply (selected_snapshot_keys db _ j Hpk) in Hin as [w [Hj HP]].
    rewrite Hj. by rewrite decide_True.
  - destruct (snapshots db !! j) as [w|] eqn:Hj; [| done].
    destruct (decide (snap_location_id w = k)) as [HP | HP]; [| done].
    destruct Hnin. apply (selected_snapshot_keys db _ j Hpk). eauto.
Qed.

(** The handler's run on a stored id. *)
Lemma delete_location_run (e : env) (db : DB) (k : Z) (l : Location) :
  locations db !! k = Some l ->
  snapshot_keys_ok db ->
  get_db (main.delete_location k) e db
  = match loc_id l with
    | Some k' => (Return (mkOk true),
                  mkDB (delete k' (locations db)) (snapshots_after_delete db k))
    | None => (Raise InvalidRequestError, db)
    end.
Proof.
  intros Hk Hpk.
  unfold get_db, main.delete_location, get_location, select.
  unfold Py.bind at 1. simpl. rewrite Hk.
  unfold Py.bind at 1. unfold Py.bind at 1.
  rewrite for_each_delete_snapshot
    by (simpl; by apply selected_snapshots_have_keys).
  simpl. unfold Py.bind, database.delete_location, commit, Py.ret. simpl.
  by destruct (loc_id l).
Qed.

Lemma delete_location_unknown (e : env) (db : DB) (k : Z) :
  locations db !! k = None ->
  get_db (main.delete_location k) e db = (Raise (unstored_id_error k), db).
Proof.
  intros Hk. unfold unstored_id_error, get_db, main.delete_location,
    get_location, Py.bind.
  simpl. rewrite Hk. by destruct (sqlite_integer k).
Qed.

(** C7. At the id 2^63, under which no Location is stored, Delete-location
    does not fail with the 404: [session.get] raises [OverflowError] on the
    id before the handler can test what it found, the exception leaves the
    handler, and the request is answered with a 500. The tables stay as
    they were. *)
Theorem delete_location_beyond_sqlite_integer :
  let r := get_db (main.delete_location (2 ^ 63)) provider_with_weather
                  paris_tables in
  locations paris_tables !! (2 ^ 63) = None
  /\ r = (Raise OverflowError, paris_tables)
  /\ fst r <> Raise (HTTPException 404 "Location not found")
  /\ http_status (fst r) = 500.
Proof.
  assert (Hk : locations paris_tables !! (2 ^ 63) = None)
    by (vm_compute; reflexivity).
  simpl. rewrite (delete_location_unknown _ _ _ Hk).
  rewrite unstored_id_overflow by reflexivity. done.
Qed.

(** X18. Delete-location on an id under which nothing is stored changes
    nothing; it fails with the 404 [HTTPException] when the id is a SQLite
    INTEGER and with [OverflowError] when it is not. On the id of a stored
    row (in tables whose rows carry their keys) it returns [{ok: true}],
    removes the
    Location row, and removes every WeatherSnapshot row that references it
    and no other: no row is stored any more under the ids of the removed
    snapshots. *)
Theorem delete_location_cascade (e : env) (db : DB) (k : Z) :
  (locations db !! k = None ->
   get_db (main.delete_location k) e db
     = (Raise (if sqlite_integer k
               then HTTPException 404 "Location not found"
               else OverflowError), db))
  /\ (forall l, locations db !! k = Some l ->
      location_keys_ok db -> snapshot_keys_ok db ->
      let db' := snd (get_db (main.delete_location k) e db) in
      fst (get_db (main.delete_location k) e db) = Return (mkOk true)
      /\ locations db' = delete k (locations db)
      /\ (forall j w, snapshots db !! j = Some w ->
            snap_location_id w = k -> snapshots db' !! j = None)
      /\ (forall j w, snapshots db !! j = Some w ->
            snap_location_id w <> k -> snapshots db' !! j = Some w)
      /\ (forall j, snapshots db !! j = None -> snapshots db' !! j = None)).
Proof.
  split.
  - apply delete_location_unknown.
  - intros l Hk Hlk Hsk. simpl.
    rewrite (delete_location_run e db k l Hk Hsk).
    rewrite (Hlk k l Hk). simpl.
    split; [done |]. split; [done |]. split; [| split].
    + intros j w Hj Href. rewrite lookup_snapshots_after_delete by done.
      rewrite Hj. by rewrite decide_True.
    + intros j w Hj Href. rewrite lookup_snapshots_after_delete by done.
      rewrite Hj. by rewrite decide_False.
    + intros j Hj. rewrite lookup_snapshots_after_delete by done.
      by rewrite Hj.
Qed.

(* --------------------------------------------------------------------- *)
(** ** Snapshot rows are never rewritten *)
(* --------------------------------------------------------------------- *)

Lemma sync_snapshot_table (e : env) (db : DB) (k : Z) :
  same_or_inserted (snapshots db)
    (snapshots (snd (get_db (sync_location_weather k) e db))).
Proof.
  destruct (locations db !! k) as [l|] eqn:Hk.
  2:{ rewrite (sync_location_weather_unknown e db k Hk). by left. }
  run_handler. rewrite Hk. simpl.
  destruct (get_current_weather e (loc_lat l) (loc_lon l)) as [w|]; simpl;
    [| by left].
  right. by eexists.
Qed.

Lemma create_snapshot_table (e : env) (db : DB) (c : string) :
  same_or_inserted (snapshots db)
    (snapshots (snd (get_db (create_location c) e db))).
Proof.
  run_handler. destruct (get_coordinates e c) as [g|]; simpl; [| by left].
  destruct (first _) as [existing|]; simpl; [by left |].
  rewrite !lookup_insert_eq. simpl.
  set (l0 := set_loc_id _ _).
  destruct (get_current_weather e (loc_lat l0) (loc_lon l0)) as [w|] eqn:Hw.
  - erewrite (sync_in_session_success e _ _ l0 w);
      [| apply lookup_insert_eq | done | done].
    simpl. rewrite lookup_insert_eq. simpl. right. by eexists.
  - erewrite (sync_in_session_unavailable e _ _ l0);
      [| apply lookup_insert_eq | done].
    simpl. by left.
Qed.

Lemma update_snapshot_table (e : env) (db : DB) (k : Z) (f : option bool)
  (d : option string) :
  snapshots (snd (get_db (update_location k f d) e db)) = snapshots db.
Proof.
  destruct (locations db !! k) as [l|] eqn:Hk.
  2:{ by rewrite (update_location_unknown e db k f d Hk). }
  run_handler. rewrite Hk. simpl. rewrite lookup_insert_eq. done.
Qed.

Lemma read_only_tables (e : env) (db : DB) (k : Z) :
  snd (get_db read_locations e db) = db
  /\ snd (get_db (get_weather k) e db) = db.
Proof.
  split; [by run_handler |].
  destruct (locations db !! k) as [l|] eqn:Hk.
  - run_handler. by rewrite Hk.
  - by rewrite (get_weather_unknown e db k Hk).
Qed.

(** C8. WeatherSnapshot rows are immutable. Whatever operation runs, on
    tables whose snapshot rows carry their keys, a snapshot row stored
    before it is either stored unchanged under the same key afterwards, or
    gone; and it is gone only when the operation is Delete-location of the
    existing Location the row references. Rows that appear are new keys. *)
Theorem snapshot_rows_immutable (op : operation) (e : env) (db : DB)
  (j : Z) (w : WeatherSnapshot) :
  snapshot_keys_ok db ->
  snapshots db !! j = Some w ->
  snapshots (perform op e db) !! j = Some w
  \/ (snapshots (perform op e db) !! j = None
      /\ op = DeleteLocation (snap_location_id w)
      /\ is_Some (locations db !! snap_location_id w)).
Proof.
  intros Hpk Hj.
  assert (Hkeep : forall t', same_or_inserted (snapshots db) t' -> t' !! j = Some w).
  { intros t' [-> | [w' ->]]; [done |].
    rewrite lookup_insert_ne; [done |].
    intros Heq. pose proof (next_rowid_fresh (snapshots db)) as Hfresh.
    rewrite Heq in Hfresh. congruence. }
  destruct op as [| c | k f d | k | k | k]; cbn [perform].
  - left. by rewrite (proj1 (read_only_tables e db 0)).
  - left. apply Hkeep, create_snapshot_table.
  - left. by rewrite update_snapshot_table.
  - destruct (locations db !! k) as [l|] eqn:Hk.
    + rewrite (delete_location_run e db k l Hk Hpk).
      destruct (loc_id l) as [k'|]; simpl; [| by left].
      rewrite lookup_snapshots_after_delete by done. rewrite Hj.
      destruct (decide (snap_location_id w = k)) as [<- | Hne]; [| by left].
      right. split; [done |]. split; [done |]. by eexists.
    + left. by rewrite (delete_location_unknown e db k Hk).
  - left. by rewrite (proj2 (read_only_tables e db k)).
  - left. apply Hkeep, sync_snapshot_table.
Qed.

(* --------------------------------------------------------------------- *)
(** ** Add-location twice *)
(* --------------------------------------------------------------------- *)



(* --------------------------------------------------------------------- *)
(** ** The provider client *)
(* --------------------------------------------------------------------- *)

(** A loop whose body keeps the list of requests and either builds the one
    [y] with [R x y] or raises: it builds the list related to [xs] item by
    item, or raises when some item has no [y]. *)
Lemma for_append_all_or_nothing {A B} (body : A -> weather_api.io B)
  (R : A -> B -> Prop) (w : weather_api.world)
  (sent : list weather_api.request) :
  (forall x, exists o, body x w sent = (o, sent)
                       /\ forall y, o = Return y <-> R x y) ->
  forall xs, exists o, for_append body xs w sent = (o, sent)
                       /\ forall ys, o = Return ys <-> Forall2 R xs ys.
Proof.
  intros Hbody. induction xs as [|x xs (o & Hrun & Hspec)]; simpl.
  - exists (Return []). split; [done |]. intros ys. split.
    + intros [= <-]. constructor.
    + intros Hys. by inversion Hys.
  - destruct (Hbody x) as (ox & Hx & Hxspec).
    unfold Py.bind at 1. rewrite Hx. destruct ox as [y|ex].
    + unfold Py.bind, Py.ret. rewrite Hrun. destruct o as [ys|ex].
      * exists (Return (y :: ys)). split; [done |]. intros zs. split.
        -- intros [= <-]. constructor; [by apply Hxspec | by apply Hspec].
        -- intros Hzs. inversion Hzs as [|? y' ? ys' Hy Hys]; subst.
           apply Hxspec in Hy. apply Hspec in Hys. congruence.
      * exists (Raise ex). split; [done |]. intros zs. split; [done |].
        intros Hzs. inversion Hzs as [|? y' ? ys' Hy Hys]; subst.
        apply Hspec in Hys. done.
    + exists (Raise ex). split; [done |]. intros zs. split; [done |].
      intros Hzs. inversion Hzs as [|? y' ? ys' Hy Hys]; subst.
      apply Hxspec in Hy. done.
Qed.

Ltac run_client :=
  unfold weather_api.search_cities, weather_api.get_coordinates,
    weather_api.get_current_weather, weather_api.get_forecast,
    Py.try_except, weather_api.appid, weather_api.client_get,
    weather_api.raise_for_status, weather_api.response_json.

(** A branch of a client proof in which the result is empty because some
    read failed: no full result can be read from the document either. *)
Ltac not_readable reads :=
  right; split; [reflexivity |];
  let data' := fresh "data'" in
  let a := fresh "a" in
  let Hp := fresh "Hp" in
  let Hr := fresh "Hr" in
  intros (data' & a & Hp & Hr);
  try match goal with
      | H : weather_api.provider _ _ _ = _ |- _ => rewrite H in Hp
      end;
  simpl in Hp;
  try discriminate Hp;
  repeat match type of Hp with
         | context [if ?c then _ else _] =>
             match goal with
             | H : c = _ |- _ => rewrite H in Hp
             end
         end;
  try discriminate Hp;
  injection Hp as <-; unfold reads in Hr.

Lemma search_cities_reads (q : string) (w : weather_api.world)
  (sent : list weather_api.request) :
  let req := geocoding_request w q 5 in
  let r := weather_api.provider w sent req in
  exists results,
    weather_api.search_cities q w sent = (Return results, sent ++ [req])
    /\ ((exists data, payload r = Some data /\ candidates_of data results)
        \/ (results = [] /\ ~ readable candidates_of r)).
Proof.
  simpl. run_client. unfold geocoding_request.
  unfold Py.bind at 1. unfold Py.bind at 1. simpl.
  destruct (weather_api.provider w sent _) as [|st body] eqn:Hreply; simpl.
  { eexists. split; [reflexivity |]. not_readable candidates_of. }
  unfold Py.bind at 1.
  destruct ((200 <=? st) && (st <=? 299)) eqn:Hst; simpl;
    [| eexists; split; [reflexivity |]; not_readable candidates_of ].
  unfold Py.bind at 1.
  destruct body as [data|]; simpl;
    [| eexists; split; [reflexivity |]; not_readable candidates_of ].
  unfold Py.bind at 1. unfold Py.lift at 1.
  destruct (iter data) as [items|ex] eqn:Hiter; simpl.
  2:{ eexists. split; [reflexivity |]. not_readable candidates_of.
      destruct Hr as (items & Hitems & _). congruence. }
  unfold Py.bind at 1.
  match goal with
  | |- context [for_append ?body items w ?st0] =>
      destruct (for_append_all_or_nothing body candidate_of w st0) with (xs := items)
        as (o & Hrun & Hspec)
  end.
  { intros it. unfold weather_api.item, Py.lift, Py.bind, Py.ret.
    destruct (getitem it "name") as [name|] eqn:H1; simpl.
    2:{ eexists. split; [reflexivity |]. intros y. split; [done |].
        intros (? & ? & ? & ? & ? & ? & ? & ? & ? & ? & ?). congruence. }
    destruct (getitem it "country") as [country|] eqn:H2; simpl.
    2:{ eexists. split; [reflexivity |]. intros y. split; [done |].
        intros (? & ? & ? & ? & ? & ? & ? & ? & ? & ? & ?). congruence. }
    destruct (get it "state" (PyStr "")) as [state|] eqn:H3; simpl.
    2:{ eexists. split; [reflexivity |]. intros y. split; [done |].
        intros (? & ? & ? & ? & ? & ? & ? & ? & ? & ? & ?). congruence. }
    destruct (getitem it "lat") as [lat|] eqn:H4; simpl.
    2:{ eexists. split; [reflexivity |]. intros y. split; [done |].
        intros (? & ? & ? & ? & ? & ? & ? & ? & ? & ? & ?). congruence. }
    destruct (getitem it "lon") as [lon|] eqn:H5; simpl.
    2:{ eexists. split; [reflexivity |]. intros y. split; [done |].
        intros (? & ? & ? & ? & ? & ? & ? & ? & ? & ? & ?). congruence. }
    eexists. split; [reflexivity |]. intros y. split.
    - intros [= <-]. unfold candidate_of. eauto 12.
    - intros (? & ? & ? & ? & ? & ? & ? & ? & ? & ? & ->). congruence. }
  rewrite Hrun. destruct o as [results|ex]; simpl.
  - eexists. split; [reflexivity |]. left. exists data.
    split; [done |]. exists items. split; [done |].
    by apply Hspec.
  - eexists. split; [reflexivity |]. not_readable candidates_of.
    destruct Hr as (items' & Hitems & Hall).
    assert (items' = items) as -> by congruence.
    apply Hspec in Hall. done.
Qed.

(** What the reads say about the shape of a document. *)
Lemma getitem_Return (v : obj) (key : string) (x : obj) :
  getitem v key = Return x <-> exists d, v = PyDict d /\ assoc key d = Some x.
Proof.
  split.
  - destruct v as [| b | q | s | items | d | t]; simpl; try done.
    destruct (assoc key d) as [y|] eqn:Hy; [| done]. intros [= <-]. eauto.
  - intros (d & -> & Hd). simpl. by rewrite Hd.
Qed.

Lemma getitem0_Return (v x : obj) :
  getitem0 v = Return x ->
  (exists rest, v = PyList (x :: rest))
  \/ (exists s c, v = PyStr s /\ x = PyStr c).
Proof.
  destruct v as [| b | q | s | items | d | t]; simpl; try done.
  - destruct (code_points s) as [|c cs]; [done |]. intros [= <-]. right. eauto.
  - destruct items as [|y rest]; [done |]. intros [= <-]. left. eauto.
Qed.

(** A document can be read by the coordinate lookup exactly when it is
    a JSON array whose first element is an object with the four keys. *)
Lemma coordinates_of_shape (data : obj) (d : Py.dict) :
  coordinates_of data d
  <-> exists fields rest lat lon name country,
        data = PyList (PyDict fields :: rest)
        /\ assoc "lat" fields = Some lat
        /\ assoc "lon" fields = Some lon
        /\ assoc "name" fields = Some name
        /\ assoc "country" fields = Some country
        /\ d = [("lat", lat); ("lon", lon); ("name", name);
                ("country", country)].
Proof.
  split.
  - intros (d0 & lat & lon & name & country & H0 & Hlat & Hlon & Hname
            & Hcountry & ->).
    apply getitem_Return in Hlat as (fields & -> & Hlat).
    apply getitem_Return in Hlon as (? & [= <-] & Hlon).
    apply getitem_Return in Hname as (? & [= <-] & Hname).
    apply getitem_Return in Hcountry as (? & [= <-] & Hcountry).
    apply getitem0_Return in H0 as [(rest & ->) | (c & s & _ & [=])].
    eauto 12.
  - intros (fields & rest & lat & lon & name & country & -> & Hlat & Hlon
            & Hname & Hcountry & ->).
    exists (PyDict fields), lat, lon, name, country. simpl.
    by rewrite Hlat, Hlon, Hname, Hcountry.
Qed.

(** A candidate comes from a JSON object with the four required keys; the
    state is the object's, or the empty string when it has none. *)
Lemma candidate_of_shape (it : obj) (d : Py.dict) :
  candidate_of it d
  <-> exists fields name country lat lon,
        it = PyDict fields
        /\ assoc "name" fields = Some name
        /\ assoc "country" fields = Some country
        /\ assoc "lat" fields = Some lat
        /\ assoc "lon" fields = Some lon
        /\ d = [("name", name); ("country", country);
                ("state", match assoc "state" fields with
                          | Some state => state
                          | None => PyStr ""
                          end);
                ("lat", lat); ("lon", lon)].
Proof.
  split.
  - intros (name & country & state & lat & lon & Hname & Hcountry & Hstate
            & Hlat & Hlon & ->).
    apply getitem_Return in Hname as (fields & -> & Hname).
    apply getitem_Return in Hcountry as (? & [= <-] & Hcountry).
    apply getitem_Return in Hlat as (? & [= <-] & Hlat).
    apply getitem_Return in Hlon as (? & [= <-] & Hlon).
    simpl in Hstate. injection Hstate as <-. eauto 12.
  - intros (fields & name & country & lat & lon & -> & Hname & Hcountry
            & Hlat & Hlon & ->).
    unfold candidate_of. simpl. rewrite Hname, Hcountry, Hlat, Hlon. eauto 12.
Qed.

Lemma falsy_has_no_first (data : obj) :
  truthy data = false -> forall x, getitem0 data <> Return x.
Proof.
  destruct data as [| b | q | s | items | d | t]; simpl; try done.
  - destruct s; [done |]. by simpl.
  - by destruct items.
Qed.

Ltac split_hyps :=
  repeat match goal with
         | H : exists _, _ |- _ => destruct H
         | H : _ /\ _ |- _ => destruct H
         end.

(** Case analysis on each read of the document, outermost first. *)
Ltac each_read :=
  repeat match goal with
         | |- context [match ?c with Return _ => _ | Raise _ => _ end] =>
             lazymatch c with
             | getitem _ _ => idtac
             | getitem0 _ => idtac
             end;
             destruct c eqn:?; simpl
         end.

Lemma get_coordinates_reads (city_name : string) (w : weather_api.world)
  (sent : list weather_api.request) :
  let req := geocoding_request w city_name 1 in
  let r := weather_api.provider w sent req in
  exists result,
    weather_api.get_coordinates city_name w sent = (Return result, sent ++ [req])
    /\ ((exists data d, payload r = Some data /\ coordinates_of data d
                        /\ result = Some d)
        \/ (result = None /\ ~ readable coordinates_of r)).
Proof.
  simpl. run_client. unfold geocoding_request.
  unfold Py.bind at 1. unfold Py.bind at 1. simpl.
  destruct (weather_api.provider w sent _) as [|st body] eqn:Hreply; simpl.
  { eexists. split; [reflexivity |]. not_readable coordinates_of. }
  unfold Py.bind at 1.
  destruct ((200 <=? st) && (st <=? 299)) eqn:Hst; simpl;
    [| eexists; split; [reflexivity |]; not_readable coordinates_of ].
  unfold Py.bind at 1.
  destruct body as [data|]; simpl;
    [| eexists; split; [reflexivity |]; not_readable coordinates_of ].
  destruct (truthy data) eqn:Htruthy.
  2:{ eexists. split; [reflexivity |]. not_readable coordinates_of.
      destruct Hr as (d0 & ? & ? & ? & ? & Hd0 & _).
      by apply (falsy_has_no_first _ Htruthy) in Hd0. }
  unfold Py.bind, weather_api.item, weather_api.item0, Py.lift, Py.ret.
  each_read;
    try (eexists; split; [reflexivity |]; not_readable coordinates_of;
         split_hyps; congruence).
  eexists. split; [reflexivity |]. left. exists data. eexists.
  split; [done |]. split; [| reflexivity]. unfold coordinates_of. eauto 12.
Qed.

Lemma get_current_weather_reads (lat lon : Qc) (units : string)
  (w : weather_api.world) (sent : list weather_api.request) :
  let req := weather_request w "/weather" lat lon units in
  let r := weather_api.provider w sent req in
  exists result,
    weather_api.get_current_weather lat lon units w sent
      = (Return result, sent ++ [req])
    /\ ((exists data d, payload r = Some data /\ conditions_of data d
                        /\ result = Some d)
        \/ (result = None /\ ~ readable conditions_of r)).
Proof.
  simpl. run_client. unfold weather_request.
  unfold Py.bind at 1. unfold Py.bind at 1. simpl.
  destruct (weather_api.provider w sent _) as [|st body] eqn:Hreply; simpl.
  { eexists. split; [reflexivity |]. not_readable conditions_of. }
  unfold Py.bind at 1.
  destruct ((200 <=? st) && (st <=? 299)) eqn:Hst; simpl;
    [| eexists; split; [reflexivity |]; not_readable conditions_of ].
  unfold Py.bind at 1.
  destruct body as [data|]; simpl;
    [| eexists; split; [reflexivity |]; not_readable conditions_of ].
  unfold Py.bind, weather_api.item, weather_api.item0, Py.lift, Py.ret.
  each_read;
    try (eexists; split; [reflexivity |]; not_readable conditions_of;
         split_hyps; congruence).
  eexists. split; [reflexivity |]. left. exists data. eexists.
  split; [done |]. split; [| reflexivity]. unfold conditions_of. eauto 25.
Qed.

Lemma fromtimestamp_keeps_requests (v : obj) (w : weather_api.world)
  (sent : list weather_api.request) :
  weather_api.fromtimestamp v w sent
  = (fst (weather_api.fromtimestamp v w []), sent).
Proof.
  unfold weather_api.fromtimestamp.
  destruct v as [| b | q | s | items | d | t]; try done.
  - by destruct (weather_api.localtime w _).
  - by destruct (weather_api.localtime w q).
Qed.

Lemma get_forecast_reads (lat lon : Qc) (units : string)
  (w : weather_api.world) (sent : list weather_api.request) :
  let req := weather_request w "/forecast" lat lon units in
  let r := weather_api.provider w sent req in
  exists results,
    weather_api.get_forecast lat lon units w sent
      = (Return results, sent ++ [req])
    /\ ((exists data, payload r = Some data /\ forecast_of w data results)
        \/ (results = [] /\ ~ readable (forecast_of w) r)).
Proof.
  simpl. run_client. unfold weather_request.
  unfold Py.bind at 1. unfold Py.bind at 1. simpl.
  destruct (weather_api.provider w sent _) as [|st body] eqn:Hreply; simpl.
  { eexists. split; [reflexivity |]. not_readable forecast_of. }
  unfold Py.bind at 1.
  destruct ((200 <=? st) && (st <=? 299)) eqn:Hst; simpl;
    [| eexists; split; [reflexivity |]; not_readable forecast_of ].
  unfold Py.bind at 1.
  destruct body as [data|]; simpl;
    [| eexists; split; [reflexivity |]; not_readable forecast_of ].
  unfold Py.bind at 1. unfold weather_api.item at 1. unfold Py.lift at 1.
  destruct (getitem data "list") as [entries|ex] eqn:Hlist; simpl.
  2:{ eexists. split; [reflexivity |]. not_readable forecast_of.
      split_hyps. congruence. }
  unfold Py.bind at 1. unfold Py.lift at 1.
  destruct (iter entries) as [items|ex] eqn:Hiter; simpl.
  2:{ eexists. split; [reflexivity |]. not_readable forecast_of.
      split_hyps. congruence. }
  unfold Py.bind at 1.
  match goal with
  | |- context [for_append ?body items w ?st0] =>
      destruct (for_append_all_or_nothing body (forecast_entry_of w) w st0)
        with (xs := items) as (o & Hrun & Hspec)
  end.
  { intros it. unfold Py.bind, weather_api.item, weather_api.item0, Py.lift, Py.ret.
    each_read;
      try (eexists; split; [reflexivity |]; intros y; split; [done |];
           unfold forecast_entry_of; intros ?; split_hyps; congruence).
    rewrite fromtimestamp_keeps_requests.
    destruct (fst (weather_api.fromtimestamp _ w [])) as [ts|ex] eqn:Hts.
    - eexists. split; [reflexivity |]. intros y. split.
      + intros [= <-]. unfold forecast_entry_of. eauto 20.
      + unfold forecast_entry_of. intros ?. split_hyps. subst. congruence.
    - eexists. split; [reflexivity |]. intros y. split; [done |].
      unfold forecast_entry_of. intros ?. split_hyps. congruence. }
  rewrite Hrun. destruct o as [results|ex]; simpl.
  - eexists. split; [reflexivity |]. left. exists data.
    split; [done |]. exists entries, items. split; [done |]. split; [done |].
    by apply Hspec.
  - eexists. split; [reflexivity |]. not_readable forecast_of.
    destruct Hr as (entries' & items' & Hentries & Hitems & Hall).
    assert (entries' = entries) as -> by congruence.
    assert (items' = items) as -> by congruence.
    apply Hspec in Hall. done.
Qed.

(* --------------------------------------------------------------------- *)
(** ** Search-cities: how many candidates *)
(* --------------------------------------------------------------------- *)

(** C5. The cap of five is asked of the provider ([limit=5]) and never
    applied to its answer: for the query "Springfield", with a provider
    that answers 200 with an array of six complete cities, [search_cities]
    returns six candidates, one more than "up to 5". *)
Lemma search_cities_returns_six :
  exists results,
    fst (weather_api.search_cities "Springfield" generous_world [])
      = Return results
    /\ length results = 6%nat
    /\ ~ (length results <= 5)%nat.
Proof.
  eexists. split; [vm_compute; reflexivity |]. simpl. split; [reflexivity | lia].
Qed.

Lemma candidate_has_keys (it : obj) (d : Py.dict) :
  candidate_of it d -> d.*1 = candidate_keys.
Proof. intros (? & ? & ? & ? & ? & _ & _ & _ & _ & _ & ->). done. Qed.

Lemma string_is_no_candidate (s : string) (d : Py.dict) :
  ~ candidate_of (PyStr s) d.
Proof. intros (? & ? & ? & ? & ? & H & _). done. Qed.

(** What holds of the length instead. Search-cities asks the provider for
    at most five matches and returns a finite list of dictionaries, each
    with exactly the keys name, country, state, lat, lon; the list is empty,
    or the provider answered with a JSON array and the list has one
    candidate per element of it; so it has at most five candidates whenever
    the provider's array has at most five elements. *)
Theorem search_cities_one_per_provider_item (q : string)
  (w : weather_api.world) (sent : list weather_api.request) :
  let req := geocoding_request w q 5 in
  let r := weather_api.provider w sent req in
  exists results,
    weather_api.search_cities q w sent = (Return results, sent ++ [req])
    /\ assoc "limit" (weather_api.params req) = Some (PyNum (Q2Qc 5))
    /\ Forall (fun d => d.*1 = candidate_keys) results
    /\ (results = []
        \/ exists st items, r = weather_api.Response st (Some (PyList items))
                            /\ length results = length items)
    /\ (forall st items, r = weather_api.Response st (Some (PyList items)) ->
        (length items <= 5)%nat -> (length results <= 5)%nat).
Proof.
  simpl. destruct (search_cities_reads q w sent) as (results & Hrun & Hres).
  exists results. split; [done |]. split; [done |].
  assert (Hshape : Forall (fun d => d.*1 = candidate_keys) results
                   /\ (results = []
                       \/ exists st items,
                            weather_api.provider w sent (geocoding_request w q 5)
                            = weather_api.Response st (Some (PyList items))
                            /\ length results = length items)).
  { destruct Hres as [(data & Hp & items & Hiter & Hall) | [-> _]];
      [| split; [constructor | by left]].
    split.
    { clear Hiter Hrun. induction Hall as [|it d its ds Hd _ IH];
        [constructor |].
      constructor; [by eapply candidate_has_keys | done]. }
    destruct results as [|d ds]; [by left |]. right.
    inversion Hall as [|it ? its ? Hd Hrest]; subst.
    destruct (weather_api.provider w sent _) as [|st body]; [done |].
    simpl in Hp. destruct ((200 <=? st) && (st <=? 299)); [| done]. subst body.
    destruct data as [| b | n | s | l | fields | t]; simpl in Hiter; try done.
    - unfold chars in Hiter.
      destruct (code_points s) as [|c cs]; simpl in Hiter; [done |].
      injection Hiter as <- _. by apply string_is_no_candidate in Hd.
    - injection Hiter as ->. exists st, (it :: its). split; [done |].
      symmetry. by eapply Forall2_length.
    - destruct fields as [|[key v] fields]; simpl in Hiter; [done |].
      injection Hiter as <- _. by apply string_is_no_candidate in Hd. }
  destruct Hshape as [Hkeys Hcount]. split; [done |]. split; [done |].
  intros st items Hr Hle.
  destruct Hcount as [-> | (st' & items' & Hr' & Hlen)]; [simpl; lia |].
  rewrite Hr in Hr'. injection Hr' as _ <-. lia.
Qed.

(* --------------------------------------------------------------------- *)
(** ** The tables the system can be in *)
(* --------------------------------------------------------------------- *)

Lemma write_keeps_tables_ok (db db' : DB) :
  tables_ok db -> write db db' -> tables_ok db'.
Proof.
  intros (Hlk & Hsk & Hown & Huniq) Hw.
  destruct Hw as [k l Hfresh Hid Hfree | k l l' Hk Hid Hlat Hlon
                 | j w Hfresh Hid Href | k];
    unfold tables_ok, location_keys_ok, snapshot_keys_ok, snapshots_owned,
      coordinates_unique; simpl.
  - split; [| split; [done | split]].
    + apply map_Forall_insert; [done |]. split; done.
    + intros j w Hj. destruct (Hown j w Hj) as [l' Hl'].
      destruct (decide (snap_location_id w = k)) as [Heq | Hne].
      { rewrite Heq in Hl'. congruence. }
      rewrite lookup_insert_ne by done. by eexists.
    + intros k1 l1 Hk1 k2 l2 Hk2 Hlat Hlon.
      destruct (decide (k1 = k)) as [-> | Hne1];
        destruct (decide (k2 = k)) as [-> | Hne2]; [done | | |].
      * rewrite lookup_insert_eq in Hk1. rewrite lookup_insert_ne in Hk2 by done.
        simplify_eq. destruct (Hfree k2 l2 Hk2). done.
      * rewrite lookup_insert_eq in Hk2. rewrite lookup_insert_ne in Hk1 by done.
        simplify_eq. destruct (Hfree k1 l1 Hk1). done.
      * rewrite lookup_insert_ne in Hk1, Hk2 by done.
        by apply (Huniq k1 l1 Hk1 k2 l2 Hk2).
  - split; [| split; [done | split]].
    + intros k1 l1 Hk1. destruct (decide (k1 = k)) as [-> | Hne].
      * rewrite lookup_insert_eq in Hk1. by simplify_eq.
      * rewrite lookup_insert_ne in Hk1 by done. by apply Hlk.
    + intros j w Hj. destruct (Hown j w Hj) as [l0 Hl0].
      destruct (decide (snap_location_id w = k)) as [-> | Hne].
      * rewrite lookup_insert_eq. by eexists.
      * rewrite lookup_insert_ne by done. by eexists.
    + intros k1 l1 Hk1 k2 l2 Hk2 Hlat1 Hlon1.
      destruct (decide (k1 = k)) as [-> | Hne1];
        destruct (decide (k2 = k)) as [-> | Hne2]; [done | | |].
      * rewrite lookup_insert_eq in Hk1. rewrite lookup_insert_ne in Hk2 by done.
        simplify_eq. apply (Huniq k l Hk k2 l2 Hk2); congruence.
      * rewrite lookup_insert_eq in Hk2. rewrite lookup_insert_ne in Hk1 by done.
        simplify_eq. apply (Huniq k1 l1 Hk1 k l Hk); congruence.
      * rewrite lookup_insert_ne in Hk1, Hk2 by done.
        by apply (Huniq k1 l1 Hk1 k2 l2 Hk2).
  - split; [done | split; [| split; [| done]]].
    + apply map_Forall_insert; [done |]. split; done.
    + apply map_Forall_insert; [done |]. split; done.
  - split; [| split; [| split]].
    + intros k1 l1 Hk1. apply lookup_delete_Some in Hk1 as [_ Hk1]. by apply Hlk.
    + intros j w Hj. rewrite lookup_snapshots_after_delete in Hj by done.
      destruct (snapshots db !! j) as [w'|] eqn:Hj'; [| done].
      destruct (decide (snap_location_id w' = k)); [done |]. simplify_eq.
      by apply Hsk.
    + intros j w Hj. rewrite lookup_snapshots_after_delete in Hj by done.
      destruct (snapshots db !! j) as [w'|] eqn:Hj'; [| done].
      destruct (decide (snap_location_id w' = k)) as [| Hne]; [done |].
      simplify_eq. destruct (Hown j w Hj') as [l Hl].
      exists l. by rewrite lookup_delete_ne.
    + intros k1 l1 Hk1 k2 l2 Hk2.
      apply lookup_delete_Some in Hk1 as [_ Hk1].
      apply lookup_delete_Some in Hk2 as [_ Hk2].
      by apply (Huniq k1 l1 Hk1 k2 l2 Hk2).
Qed.

(** Sync-snapshot on the tables, when the fetch succeeds. *)
Lemma sync_location_weather_run (e : env) (db : DB) (k : Z) (l : Location)
  (w : conditions) :
  locations db !! k = Some l ->
  loc_id l = Some k ->
  get_current_weather e (loc_lat l) (loc_lon l) = Some w ->
  get_db (sync_location_weather k) e db
  = (Return (mkSyncResponse "success"
               (Expired (Some (next_rowid (snapshots db))))),
     mkDB (<[k := set_last_synced l (Some (utcnow e 1%nat))]> (locations db))
          (<[next_rowid (snapshots db) :=
               inserted_snapshot (snapshots db) k w (utcnow e 0%nat)]>
             (snapshots db))).
Proof.
  intros Hk Hid Hw. unfold get_db.
  by rewrite (sync_in_session_success e (mkSession db db 0) k l w Hk Hid Hw).
Qed.

(** Every operation leaves tables that satisfy the conditions, when it
    starts from such tables. *)
Ltac then_insert_snapshot :=
  match goal with
  | |- tables_ok (mkDB ?L (<[?j := ?w]> ?S)) =>
      apply (write_keeps_tables_ok (mkDB L S));
      [| apply (insert_snapshot (mkDB L S) j w) ];
      cbn [locations snapshots snap_id snap_location_id inserted_snapshot]
  end.

Lemma perform_keeps_tables_ok (op : operation) (e : env) (db : DB) :
  tables_ok db -> tables_ok (perform op e db).
Proof.
  intros Hok. pose proof Hok as (Hlk & Hsk & Hown & Huniq).
  destruct op as [| c | k f d | k | k | k]; cbn [perform].
  - by rewrite (proj1 (read_only_tables e db 0)).
  - destruct (get_coordinates e c) as [g|] eqn:Hg.
    2:{ run_handler. by rewrite Hg. }
    destruct (first (filter (fun l => loc_lat l = geo_lat g /\ loc_lon l = geo_lon g)
                            (rows (locations db)))) as [x|] eqn:Hfirst.
    { by rewrite (create_location_existing e db c g x Hg Hfirst). }
    assert (Hfree : coordinates_free db (geo_lat g) (geo_lon g))
      by exact (proj1 (first_select_None (locations db) _) Hfirst).
    destruct (get_current_weather e (geo_lat g) (geo_lon g)) as [w|] eqn:Hw.
    + rewrite (create_location_new_success e db c g w Hg Hfree Hw). cbn [snd].
      then_insert_snapshot.
      * eapply write_keeps_tables_ok; [exact Hok |].
        apply insert_location; [apply next_rowid_fresh | done | done].
      * apply next_rowid_fresh.
      * done.
      * eexists. apply lookup_insert_eq.
    + rewrite (create_location_new_unavailable e db c g Hg Hfree Hw). cbn [snd].
      eapply write_keeps_tables_ok; [exact Hok |].
      apply insert_location; [apply next_rowid_fresh | done | done].
  - destruct (locations db !! k) as [l|] eqn:Hk.
    + rewrite (update_location_run e db k f d l Hk (Hlk k l Hk)). cbn [snd].
      eapply write_keeps_tables_ok; [exact Hok |].
      apply (update_row db k l); [done | exact (Hlk k l Hk) | done | done].
    + by rewrite (update_location_unknown e db k f d Hk).
  - destruct (locations db !! k) as [l|] eqn:Hk.
    + rewrite (delete_location_run e db k l Hk Hsk), (Hlk k l Hk). cbn [snd].
      eapply write_keeps_tables_ok; [exact Hok | constructor].
    + by rewrite (delete_location_unknown e db k Hk).
  - by rewrite (proj2 (read_only_tables e db k)).
  - destruct (locations db !! k) as [l|] eqn:Hk.
    2:{ by rewrite (sync_location_weather_unknown e db k Hk). }
    destruct (get_current_weather e (loc_lat l) (loc_lon l)) as [w|] eqn:Hw.
    + rewrite (sync_location_weather_run e db k l w Hk (Hlk k l Hk) Hw). cbn [snd].
      then_insert_snapshot.
      * eapply write_keeps_tables_ok; [exact Hok |].
        apply (update_row db k l); [done | exact (Hlk k l Hk) | done | done].
      * apply next_rowid_fresh.
      * done.
      * eexists. apply lookup_insert_eq.
    + unfold get_db.
      by rewrite (sync_in_session_unavailable e (mkSession db db 0) k l Hk Hw).
Qed.

(** The tables the system reaches from a fresh database satisfy the
    conditions: keys in place, snapshots owned, one Location per
    coordinate pair. *)
Lemma reachable_tables_ok (db : DB) : reachable db -> tables_ok db.
Proof.
  induction 1 as [| db op e _ IH].
  - unfold tables_ok, location_keys_ok, snapshot_keys_ok, snapshots_owned,
      coordinates_unique, create_db_and_tables. cbn [locations snapshots].
    repeat split; apply map_Forall_empty.
  - by apply perform_keeps_tables_ok.
Qed.

(* --------------------------------------------------------------------- *)
(** ** Worked instances *)
(* --------------------------------------------------------------------- *)

(** A decidable condition on closed tables, by evaluation. *)
Ltac by_evaluation :=
  lazymatch goal with
  | |- ?P => apply (bool_decide_unpack P); vm_compute; exact I
  end.

Lemma paris_tables_ok : tables_ok paris_tables.
Proof.
  unfold tables_ok, location_keys_ok, snapshot_keys_ok, snapshots_owned,
    coordinates_unique.
  repeat split; by_evaluation.
Defined.


Lemma create_location_sync_failure_persists_witness :
  coordinates_free paris_tables (geo_lat london) (geo_lon london)
  /\ fst (get_db (create_location "London") provider_without_weather
                 paris_tables)
     = Raise (HTTPException 503 "Weather API unavailable").
Proof.
  assert (Hfree : coordinates_free paris_tables (geo_lat london) (geo_lon london))
    by (unfold coordinates_free; by_evaluation).
  split; [exact Hfree |].
  destruct (create_location_sync_failure_persists
              provider_without_weather paris_tables "London" london
              eq_refl Hfree eq_refl) as (_ & _ & Hrun).
  by rewrite Hrun.
Defined.

Lemma sync_provider_failure_atomic_witness :
  locations paris_tables !! 1 = Some paris
  /\ get_db (sync_location_weather 1) provider_without_weather paris_tables
     = (Raise (HTTPException 503 "Weather API unavailable"), paris_tables).
Proof.
  assert (Hrow : locations paris_tables !! 1 = Some paris)
    by (vm_compute; reflexivity).
  split; [exact Hrow |].
  exact (proj1 (sync_provider_failure_atomic provider_without_weather
                  paris_tables 1 paris Hrow eq_refl)).
Defined.

Lemma search_cities_nonempty_at_generous :
  weather_api.search_cities "Springfield" generous_world []
  = (Return (map (fun n => [("name", PyStr "Springfield"); ("country", PyStr "US");
                            ("state", PyStr "IL");
                            ("lat", PyNum (Q2Qc (inject_Z n)));
                            ("lon", PyNum (Q2Qc (inject_Z (- n))))])
                 [1; 2; 3; 4; 5; 6]),
     [geocoding_request generous_world "Springfield" 5]).
Proof. vm_compute. reflexivity. Qed.

Lemma search_cities_one_per_provider_item_witness :
  exists results,
    fst (weather_api.search_cities "Springfield" generous_world [])
    = Return results
    /\ length results = 6%nat.
Proof.
  destruct (search_cities_one_per_provider_item "Springfield" generous_world [])
    as (results & Hrun & _ & _ & Hcount & _).
  exists results. split; [by rewrite Hrun |].
  destruct Hcount as [-> | (st & items & Hreply & ->)].
  - rewrite search_cities_nonempty_at_generous in Hrun. discriminate Hrun.
  - injection Hreply as _ <-. reflexivity.
Defined.

(** Two characters, six bytes. *)
Lemma search_short_query_no_network_witness :
  (len "東京" < 3)%nat
  /\ String.length "東京" = 6%nat
  /\ main.search_cities "東京" generous_world [] = (Return [], []).
Proof.
  assert (Hlen : (len "東京" < 3)%nat) by (vm_compute; lia).
  split; [exact Hlen |]. split; [reflexivity |].
  exact (search_short_query_no_network "東京" generous_world [] Hlen).
Defined.

Lemma delete_location_cascade_witness :
  (location_keys_ok paris_tables /\ snapshot_keys_ok paris_tables)
  /\ fst (get_db (main.delete_location 1) provider_with_weather paris_tables)
     = Return (mkOk true)
  /\ snapshots (snd (get_db (main.delete_location 1) provider_with_weather
                            paris_tables)) !! 1 = None.
Proof.
  destruct paris_tables_ok as (Hlk & Hsk & _).
  split; [by split |].
  destruct (proj2 (delete_location_cascade provider_with_weather paris_tables 1)
              paris eq_refl Hlk Hsk) as (Hok & _ & Hgone & _).
  split; [exact Hok |].
  exact (Hgone 1 paris_snapshot eq_refl eq_refl).
Defined.

Lemma snapshot_rows_immutable_witness :
  snapshot_keys_ok paris_tables
  /\ snapshots paris_tables !! 1 = Some paris_snapshot
  /\ snapshots (perform (SyncLocationWeather 1) provider_with_weather
                        paris_tables) !! 1 = Some paris_snapshot.
Proof.
  destruct paris_tables_ok as (_ & Hsk & _).
  split; [exact Hsk |]. split; [reflexivity |].
  destruct (snapshot_rows_immutable (SyncLocationWeather 1)
              provider_with_weather paris_tables 1 paris_snapshot Hsk eq_refl)
    as [Hkept | (_ & Hop & _)]; [exact Hkept | discriminate Hop].
Defined.

Lemma update_location_frame_witness :
  (locations paris_tables !! 1 = Some paris /\ loc_id paris = Some 1)
  /\ get_db (update_location 1 (Some true) None) provider_with_weather
            paris_tables
     = (Return (updated_location paris (Some true) None),
        mkDB (<[1 := updated_location paris (Some true) None]>
                (locations paris_tables))
             (snapshots paris_tables)).
Proof.
  split; [split; reflexivity |].
  exact (proj1 (proj2 (update_location_frame provider_with_weather paris_tables
                         1 (Some true) None) paris eq_refl eq_refl)).
Defined.

Lemma create_location_success_synced_witness :
  (coordinates_free paris_tables (geo_lat london) (geo_lon london)
   /\ snapshots_owned paris_tables)
  /\ exists l,
       fst (get_db (create_location "London") provider_with_weather paris_tables)
       = Return l
       /\ is_Some (loc_last_synced l).
Proof.
  assert (Hfree : coordinates_free paris_tables (geo_lat london) (geo_lon london))
    by (unfold coordinates_free; by_evaluation).
  destruct paris_tables_ok as (_ & _ & Hown & _).
  split; [by split |].
  destruct (create_location_success_synced provider_with_weather paris_tables
              "London" london clear_sky eq_refl Hfree eq_refl Hown)
    as (l & db' & k & Hrun & _ & _ & _ & Hsynced & _).
  exists l. split; [by rewrite Hrun | exact Hsynced].
Defined.

(* ===================================================================== *)
(** * Further properties of the handlers *)
(* ===================================================================== *)

(* --------------------------------------------------------------------- *)
(** ** Reading: GET /api/locations and GET /api/weather *)
(* --------------------------------------------------------------------- *)

Lemma latest_None (l : list WeatherSnapshot) : latest l = None <-> l = [].
Proof.
  destruct l as [|w rest]; simpl; [done |].
  split; [| done].
  destruct (latest rest) as [w'|]; [| done].
  by destruct (snap_timestamp w <? snap_timestamp w').
Qed.

Lemma latest_Some (l : list WeatherSnapshot) (w : WeatherSnapshot) :
  latest l = Some w ->
  w ∈ l /\ forall w', w' ∈ l -> snap_timestamp w' <= snap_timestamp w.
Proof.
  revert w. induction l as [|x rest IH]; intros w; simpl; [done |].
  destruct (latest rest) as [w0|] eqn:Hrest.
  - destruct (IH w0 eq_refl) as [Hin Hmax].
    destruct (snap_timestamp x <? snap_timestamp w0) eqn:Hlt; intros [= <-].
    + apply Z.ltb_lt in Hlt. split; [by right |].
      intros w' Hw'. apply elem_of_cons in Hw' as [-> | Hw']; [lia | by apply Hmax].
    + apply Z.ltb_ge in Hlt. split; [by left |].
      intros w' Hw'. apply elem_of_cons in Hw' as [-> | Hw']; [lia |].
      specialize (Hmax w' Hw'). lia.
  - intros [= <-]. apply latest_None in Hrest as ->. split; [by left |].
    intros w' Hw'. apply elem_of_cons in Hw' as [-> | Hw']; [lia |].
    by apply not_elem_of_nil in Hw'.
Qed.

Lemma elem_of_snapshots_for (db : DB) (k : Z) (w : WeatherSnapshot) :
  w ∈ snapshots_for db k
  <-> snap_location_id w = k /\ exists j, snapshots db !! j = Some w.
Proof.
  unfold snapshots_for. rewrite list_elem_of_filter. by rewrite elem_of_rows.
Qed.

Lemma get_weather_run (e : env) (db : DB) (k : Z) (l : Location) :
  locations db !! k = Some l ->
  get_db (get_weather k) e db
  = (Return (mkWeatherResponse l (latest (snapshots_for db k))
               (get_forecast e (loc_lat l) (loc_lon l))),
     db).
Proof. intros Hk. run_handler. by rewrite Hk. Qed.

(** X1. Get-weather never writes. On an id under which no Location is
    stored it raises the 404 when the id is a SQLite INTEGER (64 bits) and
    lets the [OverflowError] of [session.get] through when it is not; on a
    stored id it returns that Location row, the forecast the provider
    client gave for the row's coordinates, and as [current] a stored
    snapshot of that Location with the greatest timestamp, absent exactly
    when the Location has no snapshot. *)
Theorem get_weather_latest_snapshot (e : env) (db : DB) (k : Z) :
  snd (get_db (get_weather k) e db) = db
  /\ (locations db !! k = None ->
      fst (get_db (get_weather k) e db)
        = Raise (if sqlite_integer k
                 then HTTPException 404 "Location not found"
                 else OverflowError))
  /\ (forall l, locations db !! k = Some l ->
      exists r,
        fst (get_db (get_weather k) e db) = Return r
        /\ location r = l
        /\ forecast r = get_forecast e (loc_lat l) (loc_lon l)
        /\ (current r = None <->
            forall j w, snapshots db !! j = Some w -> snap_location_id w <> k)
        /\ (forall w, current r = Some w ->
            snap_location_id w = k
            /\ (exists j, snapshots db !! j = Some w)
            /\ forall j w', snapshots db !! j = Some w' ->
                 snap_location_id w' = k ->
                 snap_timestamp w' <= snap_timestamp w)).
Proof.
  split; [| split].
  - destruct (locations db !! k) as [l|] eqn:Hk.
    + by rewrite (get_weather_run e db k l Hk).
    + by rewrite (get_weather_unknown e db k Hk).
  - intros Hk. by rewrite (get_weather_unknown e db k Hk).
  - intros l Hk. rewrite (get_weather_run e db k l Hk). eexists.
    split; [reflexivity |]. cbn [fst location forecast current].
    split; [done |]. split; [done |]. split.
    + rewrite latest_None. split.
      * intros Hnil j w Hj Href.
        assert (Hin : w ∈ snapshots_for db k)
          by (apply elem_of_snapshots_for; eauto).
        rewrite Hnil in Hin. by apply not_elem_of_nil in Hin.
      * intros Hno. destruct (snapshots_for db k) as [|w rest] eqn:Hl; [done |].
        assert (Hin : w ∈ snapshots_for db k) by (rewrite Hl; left).
        apply elem_of_snapshots_for in Hin as [Href [j Hj]].
        by destruct (Hno j w Hj).
    + intros w Hw. apply latest_Some in Hw as [Hin Hmax].
      apply elem_of_snapshots_for in Hin as [Href Hstored].
      split; [done |]. split; [done |].
      intros j w' Hj Href'. apply Hmax, elem_of_snapshots_for. eauto.
Qed.


(** X2. List-locations never writes and never raises; it returns each
    stored Location row once: a Location is in the list exactly when it is
    stored under some id, and the list is as long as the table. *)
Theorem read_locations_all_rows (e : env) (db : DB) :
  exists ls,
    get_db read_locations e db = (Return ls, db)
    /\ (forall l, l ∈ ls <-> exists k, locations db !! k = Some l)
    /\ length ls = size (locations db).
Proof.
  eexists. split; [by run_handler |].
  assert (Hall : filter (fun _ : Location => True) (rows (locations db))
                 = rows (locations db)).
  { induction (rows (locations db)) as [|x xs IH]; [done |].
    rewrite filter_cons_True by done. by rewrite IH. }
  rewrite Hall. split.
  - intros l. apply elem_of_rows.
  - unfold rows. by rewrite length_fmap, length_map_to_list.
Qed.

(* --------------------------------------------------------------------- *)
(** ** Sync-now when the provider answers *)
(* --------------------------------------------------------------------- *)



(** X4. After a successful Sync-now, Get-weather for the same id has a
    [current] snapshot: it is a snapshot of that Location taken no earlier
    than the one the sync stored, and the Location it returns has the
    [last_synced] the sync wrote. *)
Theorem sync_then_get_weather (e e' : env) (db : DB) (k : Z)
  (l : Location) (w : conditions) :
  locations db !! k = Some l ->
  loc_id l = Some k ->
  get_current_weather e (loc_lat l) (loc_lon l) = Some w ->
  let db' := snd (get_db (sync_location_weather k) e db) in
  exists r cur,
    get_db (get_weather k) e' db' = (Return r, db')
    /\ loc_last_synced (location r) = Some (utcnow e 1%nat)
    /\ current r = Some cur
    /\ snap_location_id cur = k
    /\ utcnow e 0%nat <= snap_timestamp cur.
Proof.
  intros Hk Hid Hw. simpl.
  rewrite (sync_location_weather_run e db k l w Hk Hid Hw). cbn [snd].
  set (snap := inserted_snapshot (snapshots db) k w (utcnow e 0%nat)).
  set (db' := mkDB _ _).
  assert (Hl' : locations db' !! k
                = Some (set_last_synced l (Some (utcnow e 1%nat))))
    by apply lookup_insert_eq.
  assert (Hin : snap ∈ snapshots_for db' k).
  { apply elem_of_snapshots_for. split; [done |].
    exists (next_rowid (snapshots db)). apply lookup_insert_eq. }
  rewrite (get_weather_run e' db' k _ Hl').
  destruct (latest (snapshots_for db' k)) as [cur|] eqn:Hlatest.
  - destruct (latest_Some _ _ Hlatest) as [Hcur Hmax].
    exists (mkWeatherResponse (set_last_synced l (Some (utcnow e 1%nat)))
              (Some cur) (get_forecast e' (loc_lat l) (loc_lon l))), cur.
    split; [reflexivity |]. split; [done |]. split; [done |].
    split; [by apply elem_of_snapshots_for in Hcur as [? _] |].
    apply (Hmax snap Hin).
  - apply latest_None in Hlatest. rewrite Hlatest in Hin.
    by apply not_elem_of_nil in Hin.
Qed.

(* --------------------------------------------------------------------- *)
(** ** Add-location followed by another request *)
(* --------------------------------------------------------------------- *)

Lemma create_location_unresolved (e : env) (db : DB) (c : string) :
  get_coordinates e c = None ->
  get_db (create_location c) e db
    = (Raise (HTTPException 404 "City not found or API error"), db).
Proof. intros Hg. run_handler. by rewrite Hg. Qed.

(** After a successful first Add-location, the snapshots of the new id. *)
Lemma only_snapshot_of_new_location (db : DB) (k : Z) (snap : WeatherSnapshot) :
  locations db !! k = None ->
  snapshots_owned db ->
  snap_location_id snap = k ->
  forall j w,
    <[next_rowid (snapshots db) := snap]> (snapshots db) !! j = Some w ->
    snap_location_id w = k -> j = next_rowid (snapshots db) /\ w = snap.
Proof.
  intros Hfresh Hown Hsnap j w Hj Href.
  destruct (decide (j = next_rowid (snapshots db))) as [-> | Hne].
  - rewrite lookup_insert_eq in Hj. by simplify_eq.
  - rewrite lookup_insert_ne in Hj by done.
    destruct (Hown j w Hj) as [l Hl]. rewrite Href, Hfresh in Hl. done.
Qed.

(** X5. Round trip through Add-location. When Add-location creates a
    Location (coordinates resolved and free, current weather available,
    every stored snapshot owned by a stored Location), Get-weather for the
    id it returned gives back a Location with the resolved name, country,
    latitude and longitude, not favorite and without display name, and as
    [current] the one snapshot taken at creation, holding the fetched
    values. *)
Theorem create_then_get_weather (e e' : env) (db : DB) (city_name : string)
  (g : geo) (w : conditions) :
  get_coordinates e city_name = Some g ->
  coordinates_free db (geo_lat g) (geo_lon g) ->
  get_current_weather e (geo_lat g) (geo_lon g) = Some w ->
  snapshots_owned db ->
  exists (created : Location) (k : Z) (db' : DB) (r : weather_response)
         (cur : WeatherSnapshot),
    get_db (create_location city_name) e db = (Return created, db')
    /\ loc_id created = Some k
    /\ get_db (get_weather k) e' db' = (Return r, db')
    /\ location r = created
    /\ (loc_name created, loc_country created, loc_lat created,
        loc_lon created, loc_display_name created, loc_is_favorite created)
       = (geo_name g, geo_country g, geo_lat g, geo_lon g, None, false)
    /\ current r = Some cur
    /\ snap_location_id cur = k
    /\ (snap_temp cur, snap_description cur, snap_icon cur, snap_humidity cur,
        snap_wind_speed cur, snap_feels_like cur)
       = (w_temp w, w_description w, w_icon w, w_humidity w, w_wind_speed w,
          w_feels_like w).
Proof.
  intros Hgeo Hfree Hw Hown.
  set (k := next_rowid (locations db)).
  set (created := set_last_synced (inserted_location db g) (Some (utcnow e 1%nat))).
  set (snap := inserted_snapshot (snapshots db) k w (utcnow e 0%nat)).
  set (db' := mkDB (<[k := created]> (locations db))
                   (<[next_rowid (snapshots db) := snap]> (snapshots db))).
  assert (Hfresh : locations db !! k = None) by apply next_rowid_fresh.
  assert (Hrow : locations db' !! k = Some created) by apply lookup_insert_eq.
  assert (Hin : snap ∈ snapshots_for db' k).
  { apply elem_of_snapshots_for. split; [done |].
    exists (next_rowid (snapshots db)). apply lookup_insert_eq. }
  assert (Hlatest : latest (snapshots_for db' k) = Some snap).
  { destruct (latest (snapshots_for db' k)) as [cur|] eqn:Hl.
    - apply latest_Some in Hl as [Hcur _].
      apply elem_of_snapshots_for in Hcur as [Href [j Hj]].
      by destruct (only_snapshot_of_new_location db k snap Hfresh Hown
                     eq_refl j cur Hj Href) as [_ ->].
    - apply latest_None in Hl. rewrite Hl in Hin.
      by apply not_elem_of_nil in Hin. }
  exists created, k, db',
    (mkWeatherResponse created (Some snap)
       (get_forecast e' (geo_lat g) (geo_lon g))), snap.
  split; [by apply create_location_new_success |]. split; [done |].
  split; [by rewrite (get_weather_run e' db' k created Hrow), Hlatest |].
  done.
Qed.

(** X6. Add-location undone by Delete-location. When Add-location creates
    a Location with its first snapshot (tables whose snapshots carry their
    keys and are owned by stored Locations), Delete-location of the id it
    returned answers [{ok: true}] and leaves both tables exactly as they
    were before the Location was added. *)
Theorem create_then_delete_restores (e e' : env) (db : DB)
  (city_name : string) (g : geo) (w : conditions) :
  get_coordinates e city_name = Some g ->
  coordinates_free db (geo_lat g) (geo_lon g) ->
  get_current_weather e (geo_lat g) (geo_lon g) = Some w ->
  snapshots_owned db ->
  snapshot_keys_ok db ->
  exists (created : Location) (k : Z) (db' : DB),
    get_db (create_location city_name) e db = (Return created, db')
    /\ loc_id created = Some k
    /\ db' <> db
    /\ get_db (main.delete_location k) e' db' = (Return (mkOk true), db).
Proof.
  intros Hgeo Hfree Hw Hown Hkeys.
  set (k := next_rowid (locations db)).
  set (created := set_last_synced (inserted_location db g) (Some (utcnow e 1%nat))).
  set (snap := inserted_snapshot (snapshots db) k w (utcnow e 0%nat)).
  set (db' := mkDB (<[k := created]> (locations db))
                   (<[next_rowid (snapshots db) := snap]> (snapshots db))).
  assert (Hfresh : locations db !! k = None) by apply next_rowid_fresh.
  assert (Hsfresh : snapshots db !! next_rowid (snapshots db) = None)
    by apply next_rowid_fresh.
  assert (Hrow : locations db' !! k = Some created) by apply lookup_insert_eq.
  assert (Hkeys' : snapshot_keys_ok db').
  { unfold snapshot_keys_ok, db'. cbn [snapshots].
    apply map_Forall_insert; [done |]. split; done. }
  exists created, k, db'.
  split; [by apply create_location_new_success |]. split; [done |]. split.
  - intros Heq. assert (Hk : locations db' !! k = locations db !! k)
      by (by rewrite Heq). rewrite Hrow, Hfresh in Hk. done.
  - rewrite (delete_location_run e' db' k created Hrow Hkeys').
    cbn [loc_id created set_last_synced inserted_location]. fold k.
    f_equal. destruct db as [locs snaps]. f_equal.
    + unfold db'. cbn [locations]. rewrite delete_insert_eq.
      by apply delete_id.
    + apply map_eq. intros j.
      rewrite lookup_snapshots_after_delete by done.
      unfold db'. cbn [snapshots].
      destruct (decide (j = next_rowid snaps)) as [-> | Hne].
      * rewrite lookup_insert_eq. cbn [snap inserted_snapshot snap_location_id].
        by rewrite decide_True.
      * rewrite lookup_insert_ne by done.
        destruct (snaps !! j) as [x|] eqn:Hj; [| done].
        destruct (decide (snap_location_id x = k)) as [Href | Href]; [| done].
        destruct (Hown j x Hj) as [l Hl]. cbn [locations] in Hl.
        rewrite Href in Hl. cbn [locations] in Hfresh. congruence.
Qed.



(* --------------------------------------------------------------------- *)
(** ** After Delete-location *)
(* --------------------------------------------------------------------- *)

(** X8. Once a Location has been deleted (tables whose rows carry their
    keys, the id a SQLite INTEGER as the ids SQLite gives are), its id is
    unknown to every operation: a second Delete-location, Update-location,
    Get-weather and Sync-now on that id each raise the 404 and leave the
    tables as the first delete left them. *)
Theorem deleted_location_is_unknown (e e' : env) (db : DB) (k : Z)
  (l : Location) (f : option bool) (d : option string) :
  locations db !! k = Some l ->
  sqlite_integer k = true ->
  location_keys_ok db ->
  snapshot_keys_ok db ->
  let db' := snd (get_db (main.delete_location k) e db) in
  fst (get_db (main.delete_location k) e db) = Return (mkOk true)
  /\ get_db (main.delete_location k) e' db'
     = (Raise (HTTPException 404 "Location not found"), db')
  /\ get_db (update_location k f d) e' db'
     = (Raise (HTTPException 404 "Location not found"), db')
  /\ get_db (get_weather k) e' db'
     = (Raise (HTTPException 404 "Location not found"), db')
  /\ get_db (sync_location_weather k) e' db'
     = (Raise (HTTPException 404 "Location not found"), db').
Proof.
  intros Hk Hint Hlk Hsk. simpl.
  rewrite (delete_location_run e db k l Hk Hsk), (Hlk k l Hk). cbn [fst snd].
  set (db' := mkDB _ _).
  assert (Hgone : locations db' !! k = None) by apply lookup_delete_eq.
  rewrite <- (unstored_id_not_found k Hint).
  split; [done |].
  split; [by apply delete_location_unknown |].
  split; [by apply update_location_unknown |].
  split; [by apply get_weather_unknown |].
  by apply sync_location_weather_unknown.
Qed.

(* --------------------------------------------------------------------- *)
(** ** Update-location composed *)
(* --------------------------------------------------------------------- *)

Lemma updated_location_twice (l : Location) (f : option bool)
  (d : option string) :
  updated_location (updated_location l f d) f d = updated_location l f d.
Proof. by destruct f, d. Qed.

Lemma updated_location_nothing (l : Location) :
  updated_location l None None = l.
Proof. by destruct l. Qed.

(** X9. Update-location on a stored Location (whose [id] attribute is its
    key): with neither field supplied it returns the stored row and leaves
    the tables as they were; applied a second time with the same
    arguments it returns the same Location as the first time and changes
    nothing more; and a later update overrides an earlier one field by
    field: the result is the update by the later value of each field where
    one is supplied, by the earlier value otherwise. *)
Theorem update_location_composes (e : env) (db : DB) (k : Z) (l : Location)
  (f f' : option bool) (d d' : option string) :
  locations db !! k = Some l ->
  loc_id l = Some k ->
  let once := get_db (update_location k f d) e db in
  get_db (update_location k None None) e db = (Return l, db)
  /\ get_db (update_location k f d) e (snd once) = once
  /\ get_db (update_location k f' d') e (snd once)
     = get_db (update_location k
                 (match f' with Some v => Some v | None => f end)
                 (match d' with Some v => Some v | None => d end)) e db.
Proof.
  intros Hk Hid. simpl.
  rewrite !(update_location_run e db k _ _ l Hk Hid). cbn [snd].
  assert (Hrow : forall x, locations (mkDB (<[k := x]> (locations db)) (snapshots db))
                           !! k = Some x)
    by (intros x; apply lookup_insert_eq).
  split; [| split].
  - rewrite updated_location_nothing, insert_id by done. by destruct db.
  - rewrite (update_location_run e _ k f d (updated_location l f d) (Hrow _) Hid).
    cbn [locations snapshots].
    by rewrite updated_location_twice, insert_insert_eq.
  - rewrite (update_location_run e _ k f' d' (updated_location l f d) (Hrow _) Hid).
    cbn [locations snapshots]. rewrite insert_insert_eq.
    by destruct f, f', d, d'.
Qed.

(* --------------------------------------------------------------------- *)
(** ** Statuses *)
(* --------------------------------------------------------------------- *)





(* --------------------------------------------------------------------- *)
(** ** What holds of the tables at all times *)
(* --------------------------------------------------------------------- *)

Lemma perform_keeps_snapshots_synced (op : operation) (e : env) (db : DB) :
  tables_ok db -> snapshots_synced db -> snapshots_synced (perform op e db).
Proof.
  intros Hok Hsync. pose proof Hok as (Hlk & Hsk & Hown & Huniq).
  assert (Hadd : forall k x (t : gmap Z WeatherSnapshot) w,
            locations db !! k = None ->
            is_Some (loc_last_synced x) -> snap_location_id w = k ->
            t = snapshots db \/ t = <[next_rowid (snapshots db) := w]> (snapshots db) ->
            snapshots_synced (mkDB (<[k := x]> (locations db)) t)).
  { intros k x t w Hfresh Hx Hw Ht j w' Hj. cbn [locations snapshots] in *.
    assert (Hcase : (j = next_rowid (snapshots db) /\ w' = w
                     /\ t = <[next_rowid (snapshots db) := w]> (snapshots db))
                    \/ snapshots db !! j = Some w').
    { destruct Ht as [-> | ->]; [by right |].
      destruct (decide (j = next_rowid (snapshots db))) as [-> | Hne].
      - rewrite lookup_insert_eq in Hj. left. by simplify_eq.
      - rewrite lookup_insert_ne in Hj by done. by right. }
    destruct Hcase as [(-> & -> & _) | Hold].
    - exists x. rewrite Hw, lookup_insert_eq. done.
    - destruct (Hsync j w' Hold) as (l & Hl & Hls). exists l.
      rewrite lookup_insert_ne; [done |]. intros Heq.
      rewrite <- Heq in Hl. congruence. }
  destruct op as [| c | k f d | k | k | k]; cbn [perform].
  - by rewrite (proj1 (read_only_tables e db 0)).
  - destruct (get_coordinates e c) as [g|] eqn:Hg.
    2:{ by rewrite (create_location_unresolved e db c Hg). }
    destruct (first (filter (fun l => loc_lat l = geo_lat g /\ loc_lon l = geo_lon g)
                            (rows (locations db)))) as [x|] eqn:Hfirst.
    { by rewrite (create_location_existing e db c g x Hg Hfirst). }
    assert (Hfree : coordinates_free db (geo_lat g) (geo_lon g))
      by exact (proj1 (first_select_None (locations db) _) Hfirst).
    destruct (get_current_weather e (geo_lat g) (geo_lon g)) as [w|] eqn:Hw.
    + rewrite (create_location_new_success e db c g w Hg Hfree Hw). cbn [snd].
      eapply Hadd; [apply next_rowid_fresh | by eexists | | by right]. done.
    + rewrite (create_location_new_unavailable e db c g Hg Hfree Hw). cbn [snd].
      intros j w' Hj. cbn [locations snapshots] in *.
      destruct (Hsync j w' Hj) as (l & Hl & Hls). exists l.
      rewrite lookup_insert_ne; [done |]. intros Heq.
      rewrite <- Heq, next_rowid_fresh in Hl. done.
  - destruct (locations db !! k) as [l|] eqn:Hk.
    + rewrite (update_location_run e db k f d l Hk (Hlk k l Hk)). cbn [snd].
      intros j w' Hj. cbn [locations snapshots] in *.
      destruct (Hsync j w' Hj) as (l0 & Hl0 & Hls).
      destruct (decide (snap_location_id w' = k)) as [Heq | Hne].
      * rewrite Heq in *. rewrite lookup_insert_eq. eexists. split; [done |].
        simplify_eq. done.
      * rewrite lookup_insert_ne by done. eauto.
    + by rewrite (update_location_unknown e db k f d Hk).
  - destruct (locations db !! k) as [l|] eqn:Hk.
    + rewrite (delete_location_run e db k l Hk Hsk), (Hlk k l Hk). cbn [snd].
      intros j w' Hj. cbn [locations snapshots] in *.
      rewrite lookup_snapshots_after_delete in Hj by done.
      destruct (snapshots db !! j) as [x|] eqn:Hx; [| done].
      destruct (decide (snap_location_id x = k)) as [| Hne]; [done |].
      simplify_eq. destruct (Hsync j w' Hx) as (l0 & Hl0 & Hls).
      exists l0. by rewrite lookup_delete_ne.
    + by rewrite (delete_location_unknown e db k Hk).
  - by rewrite (proj2 (read_only_tables e db k)).
  - destruct (locations db !! k) as [l|] eqn:Hk.
    2:{ by rewrite (sync_location_weather_unknown e db k Hk). }
    destruct (get_current_weather e (loc_lat l) (loc_lon l)) as [w|] eqn:Hw.
    + rewrite (sync_location_weather_run e db k l w Hk (Hlk k l Hk) Hw). cbn [snd].
      intros j w' Hj. cbn [locations snapshots] in *.
      destruct (decide (snap_location_id w' = k)) as [Heq | Hne].
      * rewrite Heq, lookup_insert_eq. eexists. split; [done |]. by eexists.
      * rewrite lookup_insert_ne by done.
        destruct (decide (j = next_rowid (snapshots db))) as [-> | Hj'].
        -- rewrite lookup_insert_eq in Hj. by simplify_eq.
        -- rewrite lookup_insert_ne in Hj by done. exact (Hsync j w' Hj).
    + unfold get_db.
      by rewrite (sync_in_session_unavailable e (mkSession db db 0) k l Hk Hw).
Qed.

Lemma reachable_snapshots_synced (db : DB) : reachable db -> snapshots_synced db.
Proof.
  induction 1 as [| db op e Hreach IH].
  - intros j w Hj. unfold create_db_and_tables in Hj. cbn [snapshots] in Hj.
    by rewrite lookup_empty in Hj.
  - apply perform_keeps_snapshots_synced; [by apply reachable_tables_ok | done].
Qed.

(** X11. Starting from a fresh database, after any sequence of operations
    with any provider behaviour: every Location and every snapshot is
    stored under the id it carries; every snapshot references a stored
    Location; no two Location rows have the same latitude and longitude;
    and a Location's [last_synced] is set whenever it has a snapshot. *)
Theorem reachable_tables_invariant (db : DB) :
  reachable db ->
  (forall k l, locations db !! k = Some l -> loc_id l = Some k)
  /\ (forall j w, snapshots db !! j = Some w -> snap_id w = Some j)
  /\ (forall j w, snapshots db !! j = Some w ->
        exists l, locations db !! snap_location_id w = Some l
                  /\ is_Some (loc_last_synced l))
  /\ (forall k1 l1 k2 l2,
        locations db !! k1 = Some l1 -> locations db !! k2 = Some l2 ->
        loc_lat l1 = loc_lat l2 -> loc_lon l1 = loc_lon l2 -> k1 = k2).
Proof.
  intros Hreach.
  destruct (reachable_tables_ok db Hreach) as (Hlk & Hsk & Hown & Huniq).
  split; [exact Hlk |]. split; [exact Hsk |]. split.
  - by apply reachable_snapshots_synced.
  - intros k1 l1 k2 l2 H1 H2. by apply (Huniq k1 l1 H1 k2 l2 H2).
Qed.

(* ===================================================================== *)
(** * Further properties of the provider client *)
(* ===================================================================== *)

(** On each read that succeeded, the shape of what was read. *)
Ltac shapes :=
  repeat match goal with
         | H : getitem _ _ = Return _ |- _ =>
             apply getitem_Return in H as (? & ? & ?)
         | H : getitem0 _ = Return _ |- _ =>
             apply getitem0_Return in H as [(? & ?) | (? & ? & ? & ?)]
         end;
  simplify_eq.

Lemma candidate_in_Some (it : obj) (d : Py.dict) :
  candidate_in it = Some d <-> candidate_of it d.
Proof.
  rewrite candidate_of_shape. split.
  - destruct it as [| | | | | fields |]; simpl; try done.
    unfold city_candidate.
    destruct (assoc "name" fields) as [name|] eqn:H1; [| done].
    destruct (assoc "country" fields) as [country|] eqn:H2; [| done].
    destruct (assoc "lat" fields) as [lat|] eqn:H3; [| done].
    destruct (assoc "lon" fields) as [lon|] eqn:H4; [| done].
    intros [= <-]. eauto 12.
  - intros (fields & name & country & lat & lon & -> & H1 & H2 & H3 & H4 & ->).
    simpl. unfold city_candidate. by rewrite H1, H2, H3, H4.
Qed.

Lemma coordinates_in_Some (data : obj) (d : Py.dict) :
  coordinates_in data = Some d <-> coordinates_of data d.
Proof.
  rewrite coordinates_of_shape. split.
  - destruct data as [| | | | items | |]; simpl; try done.
    destruct items as [|[| | | | | fields |] rest]; try done.
    destruct (assoc "lat" fields) as [lat|] eqn:H1; [| done].
    destruct (assoc "lon" fields) as [lon|] eqn:H2; [| done].
    destruct (assoc "name" fields) as [name|] eqn:H3; [| done].
    destruct (assoc "country" fields) as [country|] eqn:H4; [| done].
    intros [= <-]. eauto 12.
  - intros (fields & rest & lat & lon & name & country & -> & H1 & H2 & H3
            & H4 & ->).
    simpl. by rewrite H1, H2, H3, H4.
Qed.

Lemma conditions_in_Some (data : obj) (d : Py.dict) :
  conditions_in data = Some d <-> conditions_of data d.
Proof.
  split.
  - destruct data as [| | | | | top |]; simpl; try done.
    destruct (assoc "main" top) as [[| | | | | main |]|] eqn:Hmain; try done.
    destruct (assoc "weather" top) as [[| | | | ws | |]|] eqn:Hweather; try done.
    destruct ws as [|[| | | | | w0 |] rest]; try done.
    destruct (assoc "wind" top) as [[| | | | | wind |]|] eqn:Hwind; try done.
    destruct (assoc "temp" main) as [temp|] eqn:H1; [| done].
    destruct (assoc "description" w0) as [description|] eqn:H2; [| done].
    destruct (assoc "icon" w0) as [icon|] eqn:H3; [| done].
    destruct (assoc "humidity" main) as [humidity|] eqn:H4; [| done].
    destruct (assoc "speed" wind) as [speed|] eqn:H5; [| done].
    destruct (assoc "feels_like" main) as [feels|] eqn:H6; [| done].
    intros [= <-].
    exists (PyDict main), (PyList (PyDict w0 :: rest)), (PyDict w0),
      (PyDict wind), temp, description, icon, humidity, speed, feels.
    simpl. by rewrite Hmain, Hweather, Hwind, H1, H2, H3, H4, H5, H6.
  - intros (main & weather & w0 & wind & temp & description & icon & humidity
            & speed & feels & Hmain & Hweather & Hw0 & Hwind & H1 & H2 & H3
            & H4 & H5 & H6 & ->).
    shapes. simpl.
    repeat match goal with H : assoc _ _ = Some _ |- _ => rewrite H; clear H end.
    done.
Qed.

Lemma forecast_entry_in_Some (w : weather_api.world) (it : obj) (d : Py.dict) :
  forecast_entry_in w it = Some d <-> forecast_entry_of w it d.
Proof.
  split.
  - destruct it as [| | | | | fields |]; simpl; try done.
    destruct (assoc "main" fields) as [[| | | | | main |]|] eqn:Hmain; try done.
    destruct (assoc "weather" fields) as [[| | | | ws | |]|] eqn:Hweather;
      try done.
    destruct ws as [|[| | | | | w0 |] rest]; try done.
    destruct (assoc "dt" fields) as [dt|] eqn:Hdt; [| done].
    destruct (assoc "temp" main) as [temp|] eqn:H1; [| done].
    destruct (assoc "description" w0) as [description|] eqn:H2; [| done].
    destruct (assoc "icon" w0) as [icon|] eqn:H3; [| done].
    destruct (fst (weather_api.fromtimestamp dt w [])) as [ts|] eqn:H4; [| done].
    intros [= <-].
    exists (PyDict main), (PyList (PyDict w0 :: rest)), (PyDict w0), temp,
      description, icon, dt, ts.
    simpl. by rewrite Hmain, Hweather, Hdt, H1, H2, H3.
  - intros (main & weather & w0 & temp & description & icon & dt & ts & Hmain
            & Hweather & Hw0 & H1 & H2 & H3 & Hdt & Hts & ->).
    shapes. simpl.
    repeat match goal with H : assoc _ _ = Some _ |- _ => rewrite H; clear H end.
    by rewrite Hts.
Qed.

(** From the two-case description of a result to the function of the
    document. *)
Lemma absent_or_read (reads : obj -> Py.dict -> Prop)
  (f : obj -> option Py.dict) (r : weather_api.reply)
  (result : option Py.dict) (data : obj) :
  (forall x d, f x = Some d <-> reads x d) ->
  (exists x d, payload r = Some x /\ reads x d /\ result = Some d)
  \/ (result = None /\ ~ readable reads r) ->
  payload r = Some data ->
  result = f data.
Proof.
  intros Hf [(x & d & Hp & Hread & ->) | [-> Hbad]] Hdata.
  - assert (x = data) as -> by congruence. symmetry. by apply Hf.
  - destruct (f data) as [d|] eqn:Hd; [| done].
    destruct Hbad. exists data, d. split; [done |]. by apply Hf.
Qed.

Lemma strings_give_nothing {A} (R : obj -> A -> Prop) (names : list string)
  (results : list A) :
  (forall s a, ~ R (PyStr s) a) ->
  Forall2 R (map PyStr names) results -> results = [].
Proof.
  intros Hno Hall. destruct names as [|s names]; inversion Hall; subst; [done |].
  by edestruct Hno.
Qed.

Lemma chars_are_strings (s : string) : exists names, chars s = map PyStr names.
Proof. by exists (code_points s). Qed.

Lemma keys_are_strings (fields : Py.dict) :
  map (fun kv : string * obj => PyStr (fst kv)) fields
  = map PyStr (map fst fields).
Proof. by rewrite map_map. Qed.

(** Over any iterable a loop made only of complete objects gives the list
    of their entries; strings (the keys of a dict, the characters of a
    str) give none. *)
Lemma entries_of_iterable (R : obj -> Py.dict -> Prop)
  (f : obj -> option Py.dict) (v : obj) (items : list obj)
  (results : list Py.dict) :
  (forall x d, f x = Some d <-> R x d) ->
  (forall s d, ~ R (PyStr s) d) ->
  iter v = Return items ->
  Forall2 R items results ->
  results = match v with
            | PyList l => match mapM f l with Some ds => ds | None => [] end
            | _ => []
            end.
Proof.
  intros Hf Hno Hiter Hall.
  destruct v as [| | | s | l | fields |]; simpl in Hiter; try done.
  - injection Hiter as <-. destruct (chars_are_strings s) as [names Hnames].
    rewrite Hnames in Hall. by eapply strings_give_nothing.
  - injection Hiter as <-.
    assert (Hm : mapM f l = Some results).
    { apply mapM_Some. eapply List.Forall2_impl; [| exact Hall].
      intros x d. apply Hf. }
    by rewrite Hm.
  - injection Hiter as <-. rewrite keys_are_strings in Hall.
    by eapply strings_give_nothing.
Qed.

Lemma forecast_entry_no_string (w : weather_api.world) (s : string)
  (d : Py.dict) : ~ forecast_entry_of w (PyStr s) d.
Proof. intros (? & ? & ? & ? & ? & ? & ? & ? & H & _). done. Qed.

Lemma candidates_of_in (data : obj) (results : list Py.dict) :
  candidates_of data results -> results = candidates_in data.
Proof.
  intros (items & Hiter & Hall).
  rewrite (entries_of_iterable candidate_of candidate_in data items results
             candidate_in_Some string_is_no_candidate Hiter Hall).
  by destruct data.
Qed.

Lemma candidates_in_read (data : obj) :
  candidates_in data <> [] -> candidates_of data (candidates_in data).
Proof.
  destruct data as [| | | | items | |]; simpl; try done.
  destruct (mapM candidate_in items) as [ds|] eqn:Hm; [| done].
  intros _. exists items. split; [done |].
  apply mapM_Some in Hm. eapply List.Forall2_impl; [| exact Hm].
  intros x d. apply candidate_in_Some.
Qed.

Lemma forecast_of_in (w : weather_api.world) (data : obj)
  (results : list Py.dict) :
  forecast_of w data results -> results = forecast_in w data.
Proof.
  intros (entries & items & Hlist & Hiter & Hall).
  apply getitem_Return in Hlist as (top & -> & Hlist). simpl. rewrite Hlist.
  rewrite (entries_of_iterable (forecast_entry_of w) (forecast_entry_in w)
             entries items results (forecast_entry_in_Some w)
             (forecast_entry_no_string w) Hiter Hall).
  by destruct entries.
Qed.

Lemma forecast_in_read (w : weather_api.world) (data : obj) :
  forecast_in w data <> [] -> forecast_of w data (forecast_in w data).
Proof.
  destruct data as [| | | | | top |]; simpl; try done.
  destruct (assoc "list" top) as [[| | | | items | |]|] eqn:Hlist; try done.
  destruct (mapM (forecast_entry_in w) items) as [ds|] eqn:Hm; [| done].
  intros _. exists (PyList items), items. simpl. rewrite Hlist.
  split; [done |]. split; [done |].
  apply mapM_Some in Hm. eapply List.Forall2_impl; [| exact Hm].
  intros x d. apply forecast_entry_in_Some.
Qed.

Lemma empty_or_read (reads : obj -> list Py.dict -> Prop)
  (f : obj -> list Py.dict) (r : weather_api.reply)
  (results : list Py.dict) (data : obj) :
  (forall x ds, reads x ds -> ds = f x) ->
  (forall x, f x <> [] -> reads x (f x)) ->
  (exists x, payload r = Some x /\ reads x results)
  \/ (results = [] /\ ~ readable reads r) ->
  payload r = Some data ->
  results = f data.
Proof.
  intros Hin Hread [(x & Hp & Hx) | [-> Hbad]] Hdata.
  - assert (x = data) as -> by congruence. by apply Hin.
  - destruct (f data) as [|d ds] eqn:Hf; [done |].
    destruct Hbad. exists data, (d :: ds). split; [done |].
    rewrite <- Hf. apply Hread. by rewrite Hf.
Qed.

Lemma payload_of_success (st : Z) (data : obj) :
  200 <= st <= 299 ->
  payload (weather_api.Response st (Some data)) = Some data.
Proof.
  intros Hst. simpl.
  assert ((200 <=? st) && (st <=? 299) = true) as ->; [| done].
  apply andb_true_iff. split; apply Z.leb_le; lia.
Qed.

(** The result for every reply: the function of the document when there
    is one, nothing otherwise. *)
Lemma absent_unless_read (reads : obj -> Py.dict -> Prop)
  (f : obj -> option Py.dict) (r : weather_api.reply)
  (result : option Py.dict) :
  (forall x d, f x = Some d <-> reads x d) ->
  (exists x d, payload r = Some x /\ reads x d /\ result = Some d)
  \/ (result = None /\ ~ readable reads r) ->
  result = match payload r with Some data => f data | None => None end.
Proof.
  intros Hf Hres.
  pose proof (absent_or_read reads f r result) as Hsome.
  destruct (payload r) as [data|].
  - exact (Hsome data Hf Hres eq_refl).
  - by destruct Hres as [(x & d & Hx & _) | [-> _]].
Qed.

Lemma empty_unless_read (reads : obj -> list Py.dict -> Prop)
  (f : obj -> list Py.dict) (r : weather_api.reply)
  (results : list Py.dict) :
  (forall x ds, reads x ds -> ds = f x) ->
  (forall x, f x <> [] -> reads x (f x)) ->
  (exists x, payload r = Some x /\ reads x results)
  \/ (results = [] /\ ~ readable reads r) ->
  results = match payload r with Some data => f data | None => [] end.
Proof.
  intros Hin Hread Hres.
  pose proof (empty_or_read reads f r results) as Hsome.
  destruct (payload r) as [data|].
  - exact (Hsome data Hin Hread Hres eq_refl).
  - by destruct Hres as [(x & Hx & _) | [-> _]].
Qed.

(** Every dictionary of a result has all the keys of its kind. *)
Lemma entries_have_keys (f : obj -> option Py.dict) (keys : list string)
  (items : list obj) (results : list Py.dict) :
  (forall it d, f it = Some d -> d.*1 = keys) ->
  mapM f items = Some results ->
  Forall (fun d => d.*1 = keys) results.
Proof.
  intros Hkeys Hm. apply mapM_Some in Hm.
  induction Hm as [|it d its ds Hd _ IH]; constructor; [| done].
  by apply (Hkeys it).
Qed.

Lemma candidates_in_keys (data : obj) :
  Forall (fun d => d.*1 = candidate_keys) (candidates_in data).
Proof.
  destruct data as [| | | | items | |]; try by constructor.
  simpl. destruct (mapM candidate_in items) as [ds|] eqn:Hm; [| by constructor].
  apply (entries_have_keys candidate_in _ items ds); [| done].
  intros it d Hd. apply candidate_in_Some in Hd. by eapply candidate_has_keys.
Qed.

Lemma coordinates_in_keys (data : obj) (d : Py.dict) :
  coordinates_in data = Some d -> d.*1 = ["lat"; "lon"; "name"; "country"].
Proof.
  intros Hd. apply coordinates_in_Some in Hd.
  by destruct Hd as (? & ? & ? & ? & ? & _ & _ & _ & _ & _ & ->).
Qed.

Lemma conditions_in_keys (data : obj) (d : Py.dict) :
  conditions_in data = Some d ->
  d.*1 = ["temp"; "description"; "icon"; "humidity"; "wind_speed";
          "feels_like"].
Proof.
  intros Hd. apply conditions_in_Some in Hd. unfold conditions_of in Hd.
  split_hyps. by subst.
Qed.

Lemma forecast_in_keys (w : weather_api.world) (data : obj) :
  Forall (fun d => d.*1 = ["temp"; "description"; "icon"; "timestamp"])
         (forecast_in w data).
Proof.
  destruct data as [| | | | | top |]; try by constructor.
  simpl. destruct (assoc "list" top) as [[| | | | items | |]|];
    try by constructor.
  destruct (mapM (forecast_entry_in w) items) as [ds|] eqn:Hm;
    [| by constructor].
  apply (entries_have_keys (forecast_entry_in w) _ items ds); [| done].
  intros it d Hd. apply forecast_entry_in_Some in Hd.
  unfold forecast_entry_of in Hd. split_hyps. by subst.
Qed.

(** C4, as stated, fails: a payload with every key in place and nothing
    usable under most of them is not treated as a failure. For the
    document [hollow_weather_document], answered with status 200,
    [get_current_weather] returns a dictionary with the temperature and,
    for the other five values, the nulls, the empty array and the text the
    provider sent. *)
Lemma get_current_weather_passes_nulls :
  payload (weather_api.provider hollow_world []
             (weather_request hollow_world "/weather" (loc_lat paris)
                              (loc_lon paris) "metric"))
  = Some hollow_weather_document
  /\ fst (weather_api.get_current_weather (loc_lat paris) (loc_lon paris)
            "metric" hollow_world [])
     = Return (Some [("temp", PyNum (Q2Qc (155 # 10)));
                     ("description", PyNone); ("icon", PyList []);
                     ("humidity", PyNone); ("wind_speed", PyStr "calm");
                     ("feels_like", PyNone)])
  /\ fst (weather_api.get_current_weather (loc_lat paris) (loc_lon paris)
            "metric" hollow_world [])
     <> Return None.
Proof.
  split; [reflexivity |].
  assert (Hrun : fst (weather_api.get_current_weather (loc_lat paris)
                        (loc_lon paris) "metric" hollow_world [])
                 = Return (Some [("temp", PyNum (Q2Qc (155 # 10)));
                                 ("description", PyNone); ("icon", PyList []);
                                 ("humidity", PyNone);
                                 ("wind_speed", PyStr "calm");
                                 ("feels_like", PyNone)]))
    by (vm_compute; reflexivity).
  split; [exact Hrun |]. rewrite Hrun. discriminate.
Qed.

(** C4, amended. Each of the four operations of the provider client, on
    every reply of the provider, returns to its caller without raising,
    after one request. Without a JSON document (no connection, a status
    outside 2xx, a body that is not JSON) the result is the empty list or
    absent. With a document the result is read from it, all or nothing:
    the complete result when every container and key the operation reads
    is in the document, the empty list or absent as soon as one is
    missing, so that a dictionary that is returned has all its keys. What
    is found under the keys is passed on as it came, [null] and values of
    another kind included; only the [dt] of a forecast entry has to be a
    number [datetime.fromtimestamp] accepts. *)
Theorem provider_client_all_or_nothing (w : weather_api.world)
  (sent : list weather_api.request) :
  (forall q,
     let req := geocoding_request w q 5 in
     weather_api.search_cities q w sent
     = (Return (match payload (weather_api.provider w sent req) with
                | Some data => candidates_in data
                | None => []
                end),
        sent ++ [req]))
  /\ (forall city_name,
     let req := geocoding_request w city_name 1 in
     weather_api.get_coordinates city_name w sent
     = (Return (match payload (weather_api.provider w sent req) with
                | Some data => coordinates_in data
                | None => None
                end),
        sent ++ [req]))
  /\ (forall lat lon units,
     let req := weather_request w "/weather" lat lon units in
     weather_api.get_current_weather lat lon units w sent
     = (Return (match payload (weather_api.provider w sent req) with
                | Some data => conditions_in data
                | None => None
                end),
        sent ++ [req]))
  /\ (forall lat lon units,
     let req := weather_request w "/forecast" lat lon units in
     weather_api.get_forecast lat lon units w sent
     = (Return (match payload (weather_api.provider w sent req) with
                | Some data => forecast_in w data
                | None => []
                end),
        sent ++ [req]))
  /\ (forall data,
        Forall (fun d => d.*1 = candidate_keys) (candidates_in data)
        /\ Forall (fun d => d.*1 = ["temp"; "description"; "icon"; "timestamp"])
                  (forecast_in w data))
  /\ (forall data d,
        (coordinates_in data = Some d ->
         d.*1 = ["lat"; "lon"; "name"; "country"])
        /\ (conditions_in data = Some d ->
            d.*1 = ["temp"; "description"; "icon"; "humidity"; "wind_speed";
                    "feels_like"])).
Proof.
  split; [| split; [| split; [| split; [| split]]]].
  - intros q. simpl.
    destruct (search_cities_reads q w sent) as (results & Hrun & Hres).
    rewrite Hrun. f_equal. f_equal.
    exact (empty_unless_read candidates_of candidates_in _ results
             candidates_of_in candidates_in_read Hres).
  - intros city_name. simpl.
    destruct (get_coordinates_reads city_name w sent) as (result & Hrun & Hres).
    rewrite Hrun. f_equal. f_equal.
    exact (absent_unless_read coordinates_of coordinates_in _ result
             coordinates_in_Some Hres).
  - intros lat lon units. simpl.
    destruct (get_current_weather_reads lat lon units w sent)
      as (result & Hrun & Hres).
    rewrite Hrun. f_equal. f_equal.
    exact (absent_unless_read conditions_of conditions_in _ result
             conditions_in_Some Hres).
  - intros lat lon units. simpl.
    destruct (get_forecast_reads lat lon units w sent) as (results & Hrun & Hres).
    rewrite Hrun. f_equal. f_equal.
    exact (empty_unless_read (forecast_of w) (forecast_in w) _ results
             (forecast_of_in w) (forecast_in_read w) Hres).
  - intros data. split; [apply candidates_in_keys | apply forecast_in_keys].
  - intros data d. split; [apply coordinates_in_keys | apply conditions_in_keys].
Qed.

(** X12. Search on a successful reply. When the provider answers 2xx with
    a JSON document, [search_cities] returns, after one request: for an
    array whose elements are all objects with name, country, lat and lon,
    one candidate per element in the provider's order, carrying those four
    values and the element's state, or the empty string when it has none;
    and the empty list for every other document, in particular when a
    single element lacks a key. *)
Theorem search_cities_returns_candidates (q : string) (w : weather_api.world)
  (sent : list weather_api.request) (st : Z) (data : obj) :
  weather_api.provider w sent (geocoding_request w q 5)
    = weather_api.Response st (Some data) ->
  200 <= st <= 299 ->
  weather_api.search_cities q w sent
    = (Return (candidates_in data), sent ++ [geocoding_request w q 5]).
Proof.
  intros Hreply Hst.
  destruct (search_cities_reads q w sent) as (results & Hrun & Hres).
  simpl in Hres. rewrite Hreply in Hres. rewrite Hrun. f_equal. f_equal.
  apply (empty_or_read candidates_of candidates_in _ results data
           candidates_of_in candidates_in_read Hres).
  by apply payload_of_success.
Qed.

(** X13. Coordinate lookup on a successful reply. When the provider
    answers 2xx with a JSON document, [get_coordinates] returns, after one
    request carrying limit 1: the lat, lon, name and country of the first
    element when the document is an array whose first element is an object
    with these four keys, whatever follows it; and absent for every other
    document, the empty array included. *)
Theorem get_coordinates_reads_first_match (city_name : string)
  (w : weather_api.world) (sent : list weather_api.request) (st : Z)
  (data : obj) :
  weather_api.provider w sent (geocoding_request w city_name 1)
    = weather_api.Response st (Some data) ->
  200 <= st <= 299 ->
  weather_api.get_coordinates city_name w sent
    = (Return (coordinates_in data), sent ++ [geocoding_request w city_name 1]).
Proof.
  intros Hreply Hst.
  destruct (get_coordinates_reads city_name w sent) as (result & Hrun & Hres).
  simpl in Hres. rewrite Hreply in Hres. rewrite Hrun. f_equal. f_equal.
  apply (absent_or_read coordinates_of coordinates_in _ result data
           coordinates_in_Some Hres).
  by apply payload_of_success.
Qed.

(** X14. Current weather on a successful reply. When the provider answers
    2xx with a JSON document, [get_current_weather] returns, after one
    request carrying the coordinates and the units: temp, humidity and
    feels_like from [main], description and icon from the first element of
    [weather], wind_speed from [wind.speed], when the document has all of
    them; absent otherwise. *)
Theorem get_current_weather_reads_conditions (lat lon : Qc) (units : string)
  (w : weather_api.world) (sent : list weather_api.request) (st : Z)
  (data : obj) :
  weather_api.provider w sent (weather_request w "/weather" lat lon units)
    = weather_api.Response st (Some data) ->
  200 <= st <= 299 ->
  weather_api.get_current_weather lat lon units w sent
    = (Return (conditions_in data),
       sent ++ [weather_request w "/weather" lat lon units]).
Proof.
  intros Hreply Hst.
  destruct (get_current_weather_reads lat lon units w sent)
    as (result & Hrun & Hres).
  simpl in Hres. rewrite Hreply in Hres. rewrite Hrun. f_equal. f_equal.
  apply (absent_or_read conditions_of conditions_in _ result data
           conditions_in_Some Hres).
  by apply payload_of_success.
Qed.

(** X15. Forecast on a successful reply. When the provider answers 2xx
    with a JSON document, [get_forecast] returns, after one request: for a
    document whose [list] is an array of complete entries, one entry per
    element in the provider's order, with [main.temp], the description and
    icon of the first element of [weather], and [dt] converted by
    [datetime.fromtimestamp]; the empty list for every other document, in
    particular when one entry has a [dt] that is not a number or that the
    platform refuses. *)
Theorem get_forecast_returns_entries (lat lon : Qc) (units : string)
  (w : weather_api.world) (sent : list weather_api.request) (st : Z)
  (data : obj) :
  weather_api.provider w sent (weather_request w "/forecast" lat lon units)
    = weather_api.Response st (Some data) ->
  200 <= st <= 299 ->
  weather_api.get_forecast lat lon units w sent
    = (Return (forecast_in w data),
       sent ++ [weather_request w "/forecast" lat lon units]).
Proof.
  intros Hreply Hst.
  destruct (get_forecast_reads lat lon units w sent) as (results & Hrun & Hres).
  simpl in Hres. rewrite Hreply in Hres. rewrite Hrun. f_equal. f_equal.
  apply (empty_or_read (forecast_of w) (forecast_in w) _ results data
           (forecast_of_in w) (forecast_in_read w) Hres).
  by apply payload_of_success.
Qed.

(** X16. The search endpoint, for every query: it never raises; it sends
    no request when the query has fewer than three characters, as [len]
    counts them, and exactly one otherwise, and then its answer is the
    provider client's, the candidates of X12 on a successful reply. *)
Theorem search_endpoint_one_request_from_three (q : string)
  (w : weather_api.world) (sent : list weather_api.request) :
  exists results,
    main.search_cities q w sent
    = (Return results,
       if decide (len q < 3)%nat then sent
       else sent ++ [geocoding_request w q 5])
    /\ ((len q < 3)%nat -> results = [])
    /\ ((3 <= len q)%nat ->
        main.search_cities q w sent = weather_api.search_cities q w sent).
Proof.
  destruct (decide (len q < 3)%nat) as [Hshort | Hlong].
  - exists []. split; [| split; [done | lia]].
    unfold main.search_cities.
    assert (String.eqb q "" || (Z.of_nat (len q) <? 3) = true) as ->;
      [| done].
    apply orb_true_iff. right. apply Z.ltb_lt. lia.
  - assert (Hpass : main.search_cities q w sent
                    = weather_api.search_cities q w sent).
    { unfold main.search_cities.
      assert (String.eqb q "" || (Z.of_nat (len q) <? 3) = false) as ->.
      { apply orb_false_iff. split.
        - destruct q; [| done]. destruct Hlong. vm_compute. lia.
        - apply Z.ltb_ge. lia. }
      unfold Py.bind, Py.ret.
      by destruct (weather_api.search_cities q w sent) as [[results|ex] sent']. }
    destruct (search_cities_reads q w sent) as (results & Hrun & _).
    exists results. rewrite Hpass. split; [done |]. split; [lia | done].
Qed.

(* --------------------------------------------------------------------- *)
(** ** Worked instances of the further properties *)
(* --------------------------------------------------------------------- *)

Lemma get_weather_latest_snapshot_witness :
  locations paris_tables !! 1 = Some paris
  /\ exists r,
       fst (get_db (get_weather 1) provider_with_weather paris_tables) = Return r
       /\ current r = Some paris_snapshot.
Proof.
  split; [reflexivity |].
  destruct (proj2 (proj2 (get_weather_latest_snapshot provider_with_weather
                            paris_tables 1)) paris eq_refl)
    as (r & Hrun & _ & _ & _ & _).
  exists r. split; [exact Hrun |].
  rewrite (get_weather_run provider_with_weather paris_tables 1 paris eq_refl)
    in Hrun.
  injection Hrun as <-. vm_compute. reflexivity.
Defined.


Lemma sync_then_get_weather_witness :
  (locations paris_tables !! 1 = Some paris /\ loc_id paris = Some 1)
  /\ exists r cur,
       fst (get_db (get_weather 1) provider_without_weather
              (snd (get_db (sync_location_weather 1) provider_with_weather
                           paris_tables)))
       = Return r
       /\ current r = Some cur
       /\ 100 <= snap_timestamp cur.
Proof.
  split; [split; reflexivity |].
  destruct (sync_then_get_weather provider_with_weather
              provider_without_weather paris_tables 1 paris clear_sky
              eq_refl eq_refl eq_refl)
    as (r & cur & Hrun & _ & Hcur & _ & Htime).
  exists r, cur. split; [by rewrite Hrun |]. split; [exact Hcur | exact Htime].
Defined.

Lemma create_then_get_weather_witness :
  (coordinates_free paris_tables (geo_lat london) (geo_lon london)
   /\ snapshots_owned paris_tables)
  /\ exists created k db' r,
       get_db (create_location "London") provider_with_weather paris_tables
       = (Return created, db')
       /\ loc_id created = Some k
       /\ get_db (get_weather k) provider_without_weather db' = (Return r, db')
       /\ loc_name (location r) = "London".
Proof.
  assert (Hfree : coordinates_free paris_tables (geo_lat london) (geo_lon london))
    by (unfold coordinates_free; by_evaluation).
  destruct paris_tables_ok as (_ & _ & Hown & _).
  split; [by split |].
  destruct (create_then_get_weather provider_with_weather
              provider_without_weather paris_tables "London" london clear_sky
              eq_refl Hfree eq_refl Hown)
    as (created & k & db' & r & cur & Hrun & Hid & Hget & Hloc & Hfields & _).
  exists created, k, db', r. split; [exact Hrun |]. split; [exact Hid |].
  split; [exact Hget |]. rewrite Hloc. by injection Hfields.
Defined.

Lemma create_then_delete_restores_witness :
  (coordinates_free paris_tables (geo_lat london) (geo_lon london)
   /\ snapshots_owned paris_tables /\ snapshot_keys_ok paris_tables)
  /\ exists created k db',
       get_db (create_location "London") provider_with_weather paris_tables
       = (Return created, db')
       /\ loc_id created = Some k
       /\ get_db (main.delete_location k) provider_without_weather db'
          = (Return (mkOk true), paris_tables).
Proof.
  assert (Hfree : coordinates_free paris_tables (geo_lat london) (geo_lon london))
    by (unfold coordinates_free; by_evaluation).
  destruct paris_tables_ok as (_ & Hsk & Hown & _).
  split; [by repeat split |].
  destruct (create_then_delete_restores provider_with_weather
              provider_without_weather paris_tables "London" london clear_sky
              eq_refl Hfree eq_refl Hown Hsk)
    as (created & k & db' & Hrun & Hid & _ & Hdel).
  exists created, k, db'. by repeat split.
Defined.


Lemma deleted_location_is_unknown_witness :
  (locations paris_tables !! 1 = Some paris
   /\ sqlite_integer 1 = true
   /\ location_keys_ok paris_tables /\ snapshot_keys_ok paris_tables)
  /\ fst (get_db (main.delete_location 1) provider_with_weather
            (snd (get_db (main.delete_location 1) provider_with_weather
                         paris_tables)))
     = Raise (HTTPException 404 "Location not found").
Proof.
  destruct paris_tables_ok as (Hlk & Hsk & _).
  split; [by repeat split |].
  destruct (deleted_location_is_unknown provider_with_weather
              provider_with_weather paris_tables 1 paris None None
              eq_refl eq_refl Hlk Hsk) as (_ & Hagain & _).
  by rewrite Hagain.
Defined.

Lemma update_location_composes_witness :
  (locations paris_tables !! 1 = Some paris /\ loc_id paris = Some 1)
  /\ get_db (update_location 1 None None) provider_with_weather paris_tables
     = (Return paris, paris_tables).
Proof.
  split; [split; reflexivity |].
  exact (proj1 (update_location_composes provider_with_weather paris_tables 1
                  paris None None None None eq_refl eq_refl)).
Defined.


Lemma reachable_tables_invariant_witness :
  reachable london_tables
  /\ forall j w, snapshots london_tables !! j = Some w ->
       exists l, locations london_tables !! snap_location_id w = Some l
                 /\ is_Some (loc_last_synced l).
Proof.
  assert (Hreach : reachable london_tables)
    by (apply reachable_step, reachable_fresh).
  split; [exact Hreach |].
  exact (proj1 (proj2 (proj2 (reachable_tables_invariant london_tables Hreach)))).
Defined.

Lemma search_cities_returns_candidates_witness :
  (weather_api.provider generous_world []
     (geocoding_request generous_world "Springfield" 5)
   = weather_api.Response 200 (Some six_cities)
   /\ 200 <= 200 <= 299)
  /\ weather_api.search_cities "Springfield" generous_world []
     = (Return (candidates_in six_cities),
        [geocoding_request generous_world "Springfield" 5]).
Proof.
  split; [split; [reflexivity | lia] |].
  apply (search_cities_returns_candidates "Springfield" generous_world [] 200
           six_cities eq_refl). lia.
Defined.

Lemma get_coordinates_reads_first_match_witness :
  (weather_api.provider generous_world []
     (geocoding_request generous_world "Springfield" 1)
   = weather_api.Response 200 (Some six_cities)
   /\ 200 <= 200 <= 299)
  /\ fst (weather_api.get_coordinates "Springfield" generous_world [])
     = Return (Some [("lat", PyNum (Q2Qc 1)); ("lon", PyNum (Q2Qc (-1)));
                     ("name", PyStr "Springfield"); ("country", PyStr "US")]).
Proof.
  split; [split; [reflexivity | lia] |].
  rewrite (get_coordinates_reads_first_match "Springfield" generous_world []
             200 six_cities eq_refl); [reflexivity | lia].
Defined.

Lemma get_current_weather_reads_conditions_witness :
  (weather_api.provider weather_world []
     (weather_request weather_world "/weather" (loc_lat paris) (loc_lon paris)
                      "metric")
   = weather_api.Response 200 (Some weather_document)
   /\ 200 <= 200 <= 299)
  /\ fst (weather_api.get_current_weather (loc_lat paris) (loc_lon paris)
            "metric" weather_world [])
     = Return (Some [("temp", PyNum (Q2Qc (155 # 10)));
                     ("description", PyStr "clear sky"); ("icon", PyStr "01d");
                     ("humidity", PyNum (Q2Qc 50));
                     ("wind_speed", PyNum (Q2Qc 5));
                     ("feels_like", PyNum (Q2Qc 14))]).
Proof.
  split; [split; [reflexivity | lia] |].
  rewrite (get_current_weather_reads_conditions (loc_lat paris) (loc_lon paris)
             "metric" weather_world [] 200 weather_document eq_refl);
    [reflexivity | lia].
Defined.

Lemma get_forecast_returns_entries_witness :
  (weather_api.provider forecast_world []
     (weather_request forecast_world "/forecast" (loc_lat paris)
                      (loc_lon paris) "metric")
   = weather_api.Response 200 (Some forecast_document)
   /\ 200 <= 200 <= 299)
  /\ exists results,
       fst (weather_api.get_forecast (loc_lat paris) (loc_lon paris) "metric"
              forecast_world [])
       = Return results
       /\ map (assoc "timestamp") results
          = [Some (PyDatetime 1700000000); Some (PyDatetime 1700010800)].
Proof.
  split; [split; [reflexivity | lia] |].
  eexists. split.
  - rewrite (get_forecast_returns_entries (loc_lat paris) (loc_lon paris)
               "metric" forecast_world [] 200 forecast_document eq_refl);
      [reflexivity | lia].
  - vm_compute. reflexivity.
Defined.

Lemma provider_client_all_or_nothing_witness :
  weather_api.search_cities "Paris" silent_world []
  = (Return [], [geocoding_request silent_world "Paris" 5])
  /\ (conditions_in weather_document
      = Some [("temp", PyNum (Q2Qc (155 # 10)));
              ("description", PyStr "clear sky"); ("icon", PyStr "01d");
              ("humidity", PyNum (Q2Qc 50)); ("wind_speed", PyNum (Q2Qc 5));
              ("feels_like", PyNum (Q2Qc 14))]
      /\ map fst [("temp", PyNum (Q2Qc (155 # 10)));
                  ("description", PyStr "clear sky"); ("icon", PyStr "01d");
                  ("humidity", PyNum (Q2Qc 50)); ("wind_speed", PyNum (Q2Qc 5));
                  ("feels_like", PyNum (Q2Qc 14))]
         = ["temp"; "description"; "icon"; "humidity"; "wind_speed";
            "feels_like"]).
Proof.
  destruct (provider_client_all_or_nothing silent_world [])
    as (Hsearch & _ & _ & _ & _ & Hkeys).
  split; [exact (Hsearch "Paris") |].
  assert (Hread : conditions_in weather_document
                  = Some [("temp", PyNum (Q2Qc (155 # 10)));
                          ("description", PyStr "clear sky");
                          ("icon", PyStr "01d");
                          ("humidity", PyNum (Q2Qc 50));
                          ("wind_speed", PyNum (Q2Qc 5));
                          ("feels_like", PyNum (Q2Qc 14))])
    by reflexivity.
  split; [exact Hread |].
  exact (proj2 (Hkeys weather_document _) Hread).
Defined.

Lemma search_endpoint_one_request_from_three_witness :
  ((len "東京" < 3)%nat /\ (3 <= len "Zürich")%nat)
  /\ snd (main.search_cities "東京" generous_world []) = []
  /\ main.search_cities "Zürich" generous_world []
     = weather_api.search_cities "Zürich" generous_world [].
Proof.
  assert (Hshort : (len "東京" < 3)%nat) by (vm_compute; lia).
  assert (Hlong : (3 <= len "Zürich")%nat) by (vm_compute; lia).
  split; [by split |]. split.
  - destruct (search_endpoint_one_request_from_three "東京" generous_world [])
      as (results & Hrun & _).
    rewrite Hrun. cbn [snd]. by rewrite decide_True.
  - destruct (search_endpoint_one_request_from_three "Zürich" generous_world [])
      as (results & _ & _ & Hsame).
    exact (Hsame Hlong).
Defined.
